(** * nextjs-typed-api: the request adapter and the typed client helper

    A shallow embedding of [lib/api-builder.ts] (the server side adapter
    [createApiHandler]), [lib/typed-client.ts] (the SWR backed client,
    [createClient]) and [src/route-helpers.ts] ([buildRoute]), followed by the
    properties the specification states about them.

    JavaScript strings are modelled by [string]; every character the code
    inspects (brackets, the dollar sign) is ASCII, so searching the UTF-8
    bytes finds the same occurrences as searching the code units. *)

From Stdlib Require Import ZArith Ascii String List Lia.
From stdpp Require Import base option list strings gmap pretty.

Local Open Scope Z_scope.

(** ** JavaScript values *)

(** The values that travel through the adapter and the client: JSON data
    plus [undefined].  The properties of an object are kept in enumeration
    order, as [Object.entries] returns them; a well-formed object has no
    repeated key.  Numbers are the integer-valued ones, which [String]
    prints in plain decimal (below 10^21 in magnitude). *)
#[warnings="-register-all"]
Inductive JsValue : Type :=
| JUndefined
| JNull
| JBool (b : bool)
| JNumber (n : Z)
| JString (s : string)
| JArray (elems : list JsValue)
| JObject (props : list (string * JsValue)).

(** [String(value)]. *)
Fixpoint js_String (v : JsValue) : string :=
  match v with
  | JUndefined => "undefined"
  | JNull => "null"
  | JBool true => "true"
  | JBool false => "false"
  | JNumber n => pretty n
  | JString s => s
  | JArray elems =>
      (fix join (l : list JsValue) : string :=
         match l with
         | [] => EmptyString
         | x :: rest =>
             let sx := match x with
                       | JUndefined | JNull => EmptyString
                       | _ => js_String x
                       end in
             match rest with
             | [] => sx
             | _ :: _ => sx +:+ "," +:+ join rest
             end
         end) elems
  | JObject _ => "[object Object]"
  end.

(** Truthiness, as tested by [if (x)], [!x] and [a || b]. *)
Definition js_truthy (v : JsValue) : bool :=
  match v with
  | JUndefined | JNull => false
  | JBool b => b
  | JNumber n => negb (n =? 0)
  | JString s => negb (String.eqb s EmptyString)
  | JArray _ | JObject _ => true
  end.

(** [typeof v === "object"]; note that [typeof null] is ["object"]. *)
Definition js_typeof_object (v : JsValue) : bool :=
  match v with
  | JNull | JArray _ | JObject _ => true
  | _ => false
  end.

Fixpoint string_chars (s : string) : list JsValue :=
  match s with
  | EmptyString => []
  | String c s' => JString (String c EmptyString) :: string_chars s'
  end.

Definition indexed (l : list JsValue) : list (string * JsValue) :=
  imap (fun i x => (pretty (Z.of_nat i), x)) l.

(** The own enumerable string-keyed properties of a value, in enumeration
    order: what [Object.entries(v)] lists and what [{...v}] copies. *)
Definition own_entries (v : JsValue) : list (string * JsValue) :=
  match v with
  | JObject props => props
  | JArray elems => indexed elems
  | JString s => indexed (string_chars s)
  | JUndefined | JNull | JBool _ | JNumber _ => []
  end.

(** ** Objects as ordered property lists *)

Module Obj.

Definition t : Type := list (string * JsValue).

Fixpoint get (k : string) (o : t) : option JsValue :=
  match o with
  | [] => None
  | (k', v) :: o' => if String.eqb k k' then Some v else get k o'
  end.

(** [o[k] = v]: an existing property keeps its place, a new one goes last. *)
Fixpoint set (k : string) (v : JsValue) (o : t) : t :=
  match o with
  | [] => [(k, v)]
  | (k', v') :: o' =>
      if String.eqb k k' then (k', v) :: o' else (k', v') :: set k v o'
  end.

(** Copying a list of entries onto a target, in order. *)
Definition assign (target : t) (entries : list (string * JsValue)) : t :=
  fold_left (fun acc kv => set (fst kv) (snd kv) acc) entries target.

(** [Object.fromEntries(entries)]. *)
Definition fromEntries (entries : list (string * JsValue)) : t :=
  assign [] entries.

(** The object literal [{...a, ...b}]. *)
Definition spread2 (a b : JsValue) : t :=
  assign (assign [] (own_entries a)) (own_entries b).

Definition keys (o : t) : list string := map fst o.

End Obj.

(** Property read [v.k] on a value that is not [null] or [undefined]. *)
Definition js_get (v : JsValue) (k : string) : JsValue :=
  match Obj.get k (own_entries v) with
  | Some x => x
  | None => JUndefined
  end.

(** ** String search and replacement *)

(** [strip_prefix p s] is the rest of [s] after the prefix [p], if [s] starts
    with [p]. *)
Fixpoint strip_prefix (p s : string) : option string :=
  match p with
  | EmptyString => Some s
  | String a p' =>
      match s with
      | EmptyString => None
      | String b s' => if Ascii.eqb a b then strip_prefix p' s' else None
      end
  end.

(** [s.startsWith(p)]. *)
Definition js_startsWith (s p : string) : bool :=
  match strip_prefix p s with Some _ => true | None => false end.

(** The first occurrence of [pat] in [s]: the text before it and the text
    after it. *)
Fixpoint split_at_first (pat s : string) : option (string * string) :=
  match strip_prefix pat s with
  | Some rest => Some (EmptyString, rest)
  | None =>
      match s with
      | EmptyString => None
      | String c s' =>
          match split_at_first pat s' with
          | Some (pre, post) => Some (String c pre, post)
          | None => None
          end
      end
  end.

(** [s.includes(pat)]. *)
Definition js_includes (pat s : string) : bool :=
  match split_at_first pat s with Some _ => true | None => false end.

(** The expansion of a replacement text (ECMAScript [GetSubstitution]) when
    the pattern is a string, so that there are no capture groups: [$$] is a
    dollar sign, [$&] the matched text, [$`] the text before the match,
    [$'] the text after it; every other character stands for itself. *)
Fixpoint get_substitution (matched pre post rep : string) : string :=
  match rep with
  | EmptyString => EmptyString
  | String "$" (String "$" r) =>
      String "$" (get_substitution matched pre post r)
  | String "$" (String "&" r) =>
      matched +:+ get_substitution matched pre post r
  | String "$" (String "`" r) =>
      pre +:+ get_substitution matched pre post r
  | String "$" (String "'" r) =>
      post +:+ get_substitution matched pre post r
  | String c r => String c (get_substitution matched pre post r)
  end.

(** [s.replace(pat, rep)] with a string pattern: only the first occurrence
    is replaced. *)
Definition js_replace (pat rep s : string) : string :=
  match split_at_first pat s with
  | None => s
  | Some (pre, post) => pre +:+ get_substitution pat pre post rep +:+ post
  end.

(** ** Route templates ([src/route-helpers.ts]) *)

(** The template literal [`[${key}]`]. *)
Definition placeholder (key : string) : string := "[" +:+ key +:+ "]".

(** [buildRoute(path, params)]: [params] lists [Object.entries(params)]. *)
Definition buildRoute (path : string) (params : list (string * string)) : string :=
  fold_left
    (fun route kv => js_replace (placeholder (fst kv)) (snd kv) route)
    params path.

(** ** Effects: thrown values and a trace of the calls made *)

(** What a [throw] or a rejected promise carries: an instance of [Error]
    with its [message], or any other value. *)
Inductive Thrown : Type :=
| ThrownError (message : string)
| ThrownValue (v : JsValue).

Inductive Completion (A : Type) : Type :=
| Normal (a : A)
| Throw (e : Thrown).
Arguments Normal {A} a.
Arguments Throw {A} e.

(** A computation ends normally or by throwing, and records the calls it
    made to its collaborators, oldest first. *)
Definition Eff (E A : Type) : Type := (Completion A * list E)%type.

Definition outcome {E A} (m : Eff E A) : Completion A := fst m.
Definition trace {E A} (m : Eff E A) : list E := snd m.

Global Instance eff_ret {E} : MRet (Eff E) := fun A a => (Normal a, []).

Global Instance eff_bind {E} : MBind (Eff E) := fun A B k m =>
  match fst m with
  | Normal a => (fst (k a), snd m ++ snd (k a))
  | Throw e => (Throw e, snd m)
  end.

Definition throw {E A} (e : Thrown) : Eff E A := (Throw e, []).

Definition emit {E} (ev : E) : Eff E unit := (Normal tt, [ev]).

(** Awaiting a value whose computation leaves no trace of its own. *)
Definition await {E A} (c : Completion A) : Eff E A := (c, []).

(** [try { m } catch (error) { h error }]. *)
Definition try_catch {E A} (m : Eff E A) (h : Thrown -> Eff E A) : Eff E A :=
  match fst m with
  | Normal a => (Normal a, snd m)
  | Throw e => (fst (h e), snd m ++ snd (h e))
  end.

(** [promise.catch(() => fallback)]. *)
Definition promise_catch {A} (p : Completion A) (fallback : A) : Completion A :=
  match p with
  | Normal a => Normal a
  | Throw _ => Normal fallback
  end.

(** ** The request adapter ([lib/api-builder.ts]) *)

(** What the adapter reads of a [NextRequest]: the entries of
    [new URL(req.url).searchParams] and the promise [req.json()], which
    rejects when the body is not JSON. *)
Record NextRequest : Type := {
  searchParams : list (string * string);
  json : Completion JsValue
}.

(** A response: [body] is the value handed to [Response.json]; what is
    sent is its JSON text, see [sent_body]. *)
Record Response : Type := {
  status : Z;
  body : JsValue
}.

(** [Response.json(data, { status })]: a value that has no JSON text
    ([undefined]) makes it throw a [TypeError]; the text of its message is
    the runtime's (here Node's) and no statement below depends on it. *)
Definition Response_json {E} (data : JsValue) (st : Z) : Eff E Response :=
  match data with
  | JUndefined => throw (ThrownError "Value is not JSON serializable")
  | _ => mret {| status := st; body := data |}
  end.

(** A handler function [(input, { req, params }) => output]; a rejected
    promise is a [Throw]. *)
Definition HandlerFn : Type :=
  JsValue -> NextRequest -> JsValue -> Completion JsValue.

(** One issue of a failed validation. *)
Record ZodIssue : Type := {
  code : string;
  path : list JsValue;
  message : string
}.

Definition issue_json (i : ZodIssue) : JsValue :=
  JObject [("code", JString (code i)); ("path", JArray (path i));
           ("message", JString (message i))].

(** The result of [schema.safeParse(input)]. *)
Inductive SafeParseResult : Type :=
| ParseSuccess (data : JsValue)
| ParseFailure (issues : list ZodIssue).

Record ZodSchema : Type := { safeParse : JsValue -> SafeParseResult }.

Inductive Handler : Type :=
| RegularHandler (f : HandlerFn)
| SchemaHandler (schema : ZodSchema) (handler : HandlerFn).

Definition withSchema (schema : ZodSchema) (handler : HandlerFn) : Handler :=
  SchemaHandler schema handler.

(** The calls the adapter makes. *)
Inductive ServerEvent : Type :=
| EvSafeParse (input : JsValue)
| EvHandlerCall (input : JsValue) (params : JsValue)
| EvConsoleError (error : Thrown).

(** [context?.params]. *)
Definition context_params (context : option JsValue) : JsValue :=
  match context with
  | Some params => params
  | None => JUndefined
  end.

Definition is_GET_or_DELETE (method : string) : bool :=
  String.eqb method "GET" || String.eqb method "DELETE".

Definition query_entries (req : NextRequest) : list (string * JsValue) :=
  map (fun kv => (fst kv, JString (snd kv))) (searchParams req).

(** The first statement of the [try] block: [rawInput]. *)
Definition rawInput (method : string) (req : NextRequest)
    (context : option JsValue) : Eff ServerEvent Obj.t :=
  if is_GET_or_DELETE method then
    let queryParams := Obj.fromEntries (query_entries req) in
    mret (Obj.spread2 (JObject queryParams) (context_params context))
  else
    body ← await (promise_catch (json req) (JObject []));
    mret (Obj.spread2 body (context_params context)).

Definition call_handler (f : HandlerFn) (input : JsValue) (req : NextRequest)
    (context : option JsValue) : Eff ServerEvent JsValue :=
  emit (EvHandlerCall input (context_params context));;
  await (f input req (context_params context)).

Definition thrown_message (error : Thrown) : string :=
  match error with
  | ThrownError message => message
  | ThrownValue _ => "Internal server error"
  end.

(** [createMethod(method)], the function exported under the name [method]. *)
Definition createMethod (handlers : gmap string Handler) (method : string)
    (req : NextRequest) (context : option JsValue) : Eff ServerEvent Response :=
  match handlers !! method with
  | None =>
      Response_json
        (JObject [("error", JString ("Method " +:+ method +:+ " not allowed"))])
        405
  | Some handlerDef =>
      try_catch
        (raw ← rawInput method req context;
         match handlerDef with
         | SchemaHandler schema handler =>
             emit (EvSafeParse (JObject raw));;
             match safeParse schema (JObject raw) with
             | ParseFailure issues =>
                 Response_json
                   (JObject [("error", JString "Validation failed");
                             ("details", JArray (map issue_json issues))])
                   400
             | ParseSuccess data =>
                 result ← call_handler handler data req context;
                 Response_json result 200
             end
         | RegularHandler f =>
             result ← call_handler f (JObject raw) req context;
             Response_json result 200
         end)
        (fun error =>
           emit (EvConsoleError error);;
           Response_json (JObject [("error", JString (thrown_message error))]) 500)
  end.

(** [createApiHandler(handlers)]: one exported function per key of
    [Object.keys(handlers)].  A key may be registered with a falsy value
    ([undefined], [null]), which is [None] here; the handlers that
    [handlers[method]] finds inside [createMethod] are the other ones. *)
Definition createApiHandler (handlers : gmap string (option Handler))
  : gmap string (NextRequest -> option JsValue -> Eff ServerEvent Response) :=
  map_imap (fun method _ => Some (createMethod (omap id handlers) method)) handlers.

(** The earlier version of the adapter, without schema handlers: every
    handler is a plain function. *)
Module PlainAdapter.

Definition createMethod (handlers : gmap string HandlerFn) (method : string)
    (req : NextRequest) (context : option JsValue) : Eff ServerEvent Response :=
  match handlers !! method with
  | None =>
      Response_json
        (JObject [("error", JString ("Method " +:+ method +:+ " not allowed"))])
        405
  | Some handler =>
      try_catch
        (input ← rawInput method req context;
         result ← call_handler handler (JObject input) req context;
         Response_json result 200)
        (fun error =>
           emit (EvConsoleError error);;
           Response_json (JObject [("error", JString (thrown_message error))]) 500)
  end.

End PlainAdapter.

(** ** The client ([lib/typed-client.ts]) *)

(** The [RequestInit] built by [mutationFn]; [init_body] is the value whose
    JSON text is sent. *)
Record RequestInit : Type := {
  init_method : string;
  init_body : option JsValue
}.

(** What [fetch] answers: a rejection, or a response with its [ok] flag and
    the promise [res.json()]. *)
Inductive FetchResult : Type :=
| FetchRejected (e : Thrown)
| FetchResponse (ok : bool) (res_json : Completion JsValue).

Definition Network : Type := string -> RequestInit -> FetchResult.

(** The calls the client makes: [fetch], and the three uses of SWR's global
    [mutate]. *)
Inductive ClientEvent : Type :=
| EvFetch (url : string) (init : RequestInit)
| EvMutateData (key : string) (data : JsValue)
| EvMutatePrefix (baseRoute : string)
| EvMutateKey (key : string).

(** Reading [error.error] throws a [TypeError] on [null] and [undefined]
    (the message is the runtime's, here V8's). *)
Definition read_error_field (error : JsValue) : Completion JsValue :=
  match error with
  | JUndefined =>
      Throw (ThrownError "Cannot read properties of undefined (reading 'error')")
  | JNull =>
      Throw (ThrownError "Cannot read properties of null (reading 'error')")
  | _ => Normal (js_get error "error")
  end.

(** [fetcher(url, options)]; the request it issues carries the options and
    the header [Content-Type: application/json]. *)
Definition fetcher (fetch : Network) (url : string) (options : RequestInit)
  : Eff ClientEvent JsValue :=
  emit (EvFetch url options);;
  match fetch url options with
  | FetchRejected e => throw e
  | FetchResponse ok res_json =>
      if negb ok then
        error ← await (promise_catch res_json
                         (JObject [("error", JString "Network error")]));
        field ← await (read_error_field error);
        throw (ThrownError
                 (js_String (if js_truthy field then field
                             else JString "Request failed")))
      else await res_json
  end.

(** The entries the loops run over: [Object.entries(input)] under the guard
    [input && typeof input === "object"]. *)
Definition input_entries (input : JsValue) : list (string * JsValue) :=
  if js_truthy input && js_typeof_object input then own_entries input else [].

(** The assignment [o[key] = value] on an object made by a literal: for
    the key [__proto__] it reaches the setter of [Object.prototype] and
    creates no property of [o]. *)
Definition assign_property (key : string) (value : JsValue) (o : Obj.t) : Obj.t :=
  if String.eqb key "__proto__" then o else Obj.set key value o.

(** One turn of the loop of [mutationFn]. *)
Definition mutation_step (acc : string * Obj.t) (kv : string * JsValue)
  : string * Obj.t :=
  let '(finalRoute, bodyData) := acc in
  if js_includes (placeholder (fst kv)) finalRoute then
    (js_replace (placeholder (fst kv)) (js_String (snd kv)) finalRoute, bodyData)
  else
    (finalRoute, assign_property (fst kv) (snd kv) bodyData).

Definition mutation_request (route method : string) (input : JsValue)
  : string * RequestInit :=
  let '(finalRoute, bodyData) :=
    fold_left mutation_step (input_entries input) (route, []) in
  (finalRoute,
   {| init_method := method;
      init_body :=
        if (0 <? length (Obj.keys bodyData))%nat && negb (String.eqb method "DELETE")
        then Some (JObject bodyData) else None |}).

(** [mutationFn(input)] of [useMutation(route, method)]. *)
Definition mutationFn (fetch : Network) (route method : string) (input : JsValue)
  : Eff ClientEvent JsValue :=
  let '(finalRoute, options) := mutation_request route method input in
  fetcher fetch finalRoute options.

(** The options of [trigger]; an omitted field is [JUndefined] or [None]. *)
Record TriggerOptions : Type := {
  optimisticData : JsValue;
  rollbackOnError : option bool;
  revalidate : option bool
}.

(** [options?.optimisticData]. *)
Definition opt_optimisticData (options : option TriggerOptions) : JsValue :=
  match options with
  | Some o => optimisticData o
  | None => JUndefined
  end.

(** [options?.rollbackOnError !== false]. *)
Definition opt_rollbackOnError (options : option TriggerOptions) : bool :=
  match options with
  | Some o => match rollbackOnError o with Some false => false | _ => true end
  | None => true
  end.

(** [options?.revalidate !== false]. *)
Definition opt_revalidate (options : option TriggerOptions) : bool :=
  match options with
  | Some o => match revalidate o with Some false => false | _ => true end
  | None => true
  end.

(** One turn of the loop of [trigger] that computes [baseRoute]. *)
Definition base_route_step (baseRoute : string) (kv : string * JsValue) : string :=
  if js_includes (placeholder (fst kv)) baseRoute then
    js_replace (placeholder (fst kv)) (js_String (snd kv)) baseRoute
  else baseRoute.

Definition base_route (route : string) (input : JsValue) : string :=
  fold_left base_route_step (input_entries input) route.

(** [trigger(input, options)] of [useMutation(route, method)]. *)
Definition trigger (fetch : Network) (route method : string) (input : JsValue)
    (options : option TriggerOptions) : Eff ClientEvent JsValue :=
  try_catch
    ((if js_truthy (opt_optimisticData options)
      then emit (EvMutateData route (opt_optimisticData options))
      else mret tt);;
     result ← mutationFn fetch route method input;
     (if opt_revalidate options
      then emit (EvMutatePrefix (base_route route input))
      else mret tt);;
     mret result)
    (fun error =>
       (if opt_rollbackOnError options && js_truthy (opt_optimisticData options)
        then emit (EvMutateKey route)
        else mret tt);;
       throw error).

(** The predicate handed to [mutate] after a successful call:
    [(key) => typeof key === "string" && key.startsWith(baseRoute)]. *)
Definition prefix_filter (baseRoute : string) (key : JsValue) : bool :=
  match key with
  | JString s => js_startsWith s baseRoute
  | _ => false
  end.

(** ** The cache the client talks to *)

(** Modelled from the spec: the external cache (SWR), of which the
    repository holds only the calls.  An entry keeps the key it was created
    with, the last known value and whether it has been marked stale and is
    being refetched; entries are stored under the text of their key, which
    for a string key is the string itself. *)
Record CacheEntry : Type := {
  entry_key : JsValue;
  entry_data : JsValue;
  entry_stale : bool
}.

Definition mark_stale (e : CacheEntry) : CacheEntry :=
  {| entry_key := entry_key e; entry_data := entry_data e; entry_stale := true |}.

Definition cache_set (key : string) (data : JsValue) (c : gmap string CacheEntry)
  : gmap string CacheEntry :=
  match c !! key with
  | Some e =>
      <[key := {| entry_key := entry_key e; entry_data := data;
                  entry_stale := entry_stale e |}]> c
  | None =>
      <[key := {| entry_key := JString key; entry_data := data;
                  entry_stale := false |}]> c
  end.

Definition cache_invalidate (f : JsValue -> bool) (c : gmap string CacheEntry)
  : gmap string CacheEntry :=
  (fun e => if f (entry_key e) then mark_stale e else e) <$> c.

Definition cache_refetch (key : string) (c : gmap string CacheEntry)
  : gmap string CacheEntry :=
  alter mark_stale key c.

Definition cache_step (c : gmap string CacheEntry) (ev : ClientEvent)
  : gmap string CacheEntry :=
  match ev with
  | EvFetch _ _ => c
  | EvMutateData key data => cache_set key data c
  | EvMutatePrefix baseRoute => cache_invalidate (prefix_filter baseRoute) c
  | EvMutateKey key => cache_refetch key c
  end.

Definition cache_run (evs : list ClientEvent) (c : gmap string CacheEntry)
  : gmap string CacheEntry :=
  fold_left cache_step evs c.

(** ** Vocabulary of the statements *)

(** The path parameters of a request, read off the context itself. *)
Definition path_fields (context : option JsValue) : list (string * JsValue) :=
  match context with
  | Some params => own_entries params
  | None => []
  end.

(** The fields a request supplies itself, read off the request: the pairs
    of the query string for GET and DELETE, the properties of the JSON body
    otherwise (none when the body does not parse). *)
Definition own_fields (method : string) (req : NextRequest)
  : list (string * JsValue) :=
  if String.eqb method "GET" || String.eqb method "DELETE"
  then map (fun kv => (fst kv, JString (snd kv))) (searchParams req)
  else match json req with
       | Normal b => own_entries b
       | Throw _ => []
       end.

(** The value of the JSON text of a value, as [JSON.stringify] writes it:
    a property holding [undefined] is left out and an [undefined] element
    of an array is written [null]. *)
Fixpoint to_json (v : JsValue) : JsValue :=
  match v with
  | JArray elems =>
      JArray
        ((fix elements (l : list JsValue) : list JsValue :=
            match l with
            | [] => []
            | x :: rest =>
                match x with
                | JUndefined => JNull
                | _ => to_json x
                end :: elements rest
            end) elems)
  | JObject props =>
      JObject
        ((fix properties (l : list (string * JsValue)) : list (string * JsValue) :=
            match l with
            | [] => []
            | (k, x) :: rest =>
                match x with
                | JUndefined => properties rest
                | _ => (k, to_json x) :: properties rest
                end
            end) props)
  | _ => v
  end.

(** What a client reads back from a response. *)
Definition sent_body (r : Response) : JsValue := to_json (body r).

(** The fields an assignment keeps: all but one named [__proto__]. *)
Definition sendable (es : list (string * JsValue)) : list (string * JsValue) :=
  List.filter (fun kv => negb (String.eqb (fst kv) "__proto__")) es.

(** The value the last entry for [k] carries, if [k] occurs in [es]. *)
Fixpoint last_value (k : string) (es : list (string * JsValue)) : option JsValue :=
  match es with
  | [] => None
  | (k', v) :: es' =>
      match last_value k es' with
      | Some x => Some x
      | None => if String.eqb k k' then Some v else None
      end
  end.

(** The fields a request supplies besides the path parameters: the query
    string for GET and DELETE, the JSON body otherwise (none when the body
    does not parse). *)
Definition request_fields (method : string) (req : NextRequest)
  : list (string * JsValue) :=
  if is_GET_or_DELETE method then query_entries req
  else match json req with
       | Normal b => own_entries b
       | Throw _ => []
       end.

(** What the handler registered for a method is given first: a plain
    function is called with the input, a schema handler has its schema
    parse it. *)
Definition delivery (handlerDef : Handler) (input params : JsValue) : ServerEvent :=
  match handlerDef with
  | RegularHandler _ => EvHandlerCall input params
  | SchemaHandler _ _ => EvSafeParse input
  end.

(** The calls of the handler's function recorded in a trace, each with
    the input and the path parameters it was given. *)
Definition handler_calls (tr : list ServerEvent) : list (JsValue * JsValue) :=
  omap (fun ev => match ev with
                  | EvHandlerCall input params => Some (input, params)
                  | _ => None
                  end) tr.

(** What the function of a handler answers when the adapter reaches it:
    nothing when the schema rejects the input. *)
Definition handler_result (handlerDef : Handler) (raw : JsValue)
    (req : NextRequest) (params : JsValue) : option (Completion JsValue) :=
  match handlerDef with
  | RegularHandler f => Some (f raw req params)
  | SchemaHandler schema handler =>
      match safeParse schema raw with
      | ParseSuccess data => Some (handler data req params)
      | ParseFailure _ => None
      end
  end.

(** The same options with [optimisticData] left out. *)
Definition without_optimisticData (o : TriggerOptions) : TriggerOptions :=
  {| optimisticData := JUndefined;
     rollbackOnError := rollbackOnError o;
     revalidate := revalidate o |}.

(** The requests recorded in a trace. *)
Definition fetch_calls (tr : list ClientEvent) : list (string * RequestInit) :=
  omap (fun ev => match ev with
                  | EvFetch url init => Some (url, init)
                  | _ => None
                  end) tr.

(** ** Route templates as the specification describes them *)

(** A route template read as the specification words it: literal text and
    bracketed placeholders.  [substitute] is substitution on that reading,
    to be compared with what [buildRoute] does on the text. *)
Inductive Segment : Type :=
| Lit (text : string)
| Param (name : string).

Definition render_segment (s : Segment) : string :=
  match s with
  | Lit text => text
  | Param name => placeholder name
  end.

Fixpoint render (segs : list Segment) : string :=
  match segs with
  | [] => EmptyString
  | s :: rest => render_segment s +:+ render rest
  end.

(** Filling in one parameter. *)
Definition fill (key value : string) (s : Segment) : Segment :=
  match s with
  | Param name => if String.eqb name key then Lit value else s
  | Lit _ => s
  end.

(** The value the first entry for [k] carries. *)
Fixpoint first_value (k : string) (params : list (string * string)) : option string :=
  match params with
  | [] => None
  | (k', v) :: rest => if String.eqb k k' then Some v else first_value k rest
  end.

(** Substitution as the specification words it: every placeholder whose
    name is a key of the mapping becomes that key's value. *)
Definition substitute (params : list (string * string)) (s : Segment) : Segment :=
  match s with
  | Param name =>
      match first_value name params with
      | Some v => Lit v
      | None => Param name
      end
  | Lit text => Lit text
  end.

Definition param_names (segs : list Segment) : list string :=
  omap (fun s => match s with Param name => Some name | Lit _ => None end) segs.

Fixpoint has_char (c : ascii) (s : string) : bool :=
  match s with
  | EmptyString => false
  | String a s' => Ascii.eqb a c || has_char c s'
  end.

Definition segment_ok (s : Segment) : bool :=
  match s with
  | Lit text => negb (has_char "[" text)
  | Param name => negb (has_char "[" name) && negb (has_char "]" name)
  end.

Fixpoint distinct (l : list string) : bool :=
  match l with
  | [] => true
  | x :: rest => negb (existsb (String.eqb x) rest) && distinct rest
  end.

(** Literal text holds no opening bracket, a placeholder name no bracket,
    and no name is used twice. *)
Definition well_formed (segs : list Segment) : bool :=
  forallb segment_ok segs && distinct (param_names segs).

(** Keys without a closing bracket, values without an opening bracket or a
    dollar sign. *)
Definition plain_entry (kv : string * string) : bool :=
  negb (has_char "]" (fst kv)) && negb (has_char "[" (snd kv))
  && negb (has_char "$" (snd kv)).

Definition plain_params (params : list (string * string)) : bool :=
  forallb plain_entry params.

(** ** Sample routes, requests and networks *)

(** A handler that answers with the [id] it was given. *)
Definition echo_id : HandlerFn :=
  fun input _ _ => Normal (JObject [("id", js_get input "id")]).

Definition get_user_request : NextRequest :=
  {| searchParams := [("id", "a")]; json := Throw (ThrownError "no body") |}.

(** A schema that requires a string field [name]. *)
Definition name_required : ZodSchema :=
  {| safeParse := fun input =>
       match js_get input "name" with
       | JString _ => ParseSuccess input
       | _ => ParseFailure
                [{| code := "invalid_type"; path := [JString "name"];
                    message := "Required" |}]
       end |}.

Definition create_user : HandlerFn :=
  fun input _ _ => Normal (JObject [("name", js_get input "name")]).

Definition users_handlers : gmap string Handler :=
  {["POST" := withSchema name_required create_user]}.

Definition malformed_post : NextRequest :=
  {| searchParams := []; json := Throw (ThrownError "Unexpected token") |}.

Definition boom : HandlerFn := fun _ _ _ => Throw (ThrownError "boom").

(** A schema that fills in a default [limit], as the users route does. *)
Definition default_limit : ZodSchema :=
  {| safeParse := fun input =>
       match js_get input "limit" with
       | JUndefined =>
           ParseSuccess (JObject (Obj.set "limit" (JString "10") (own_entries input)))
       | JString _ => ParseSuccess input
       | _ => ParseFailure
                [{| code := "invalid_type"; path := [JString "limit"];
                    message := "Expected string" |}]
       end |}.

Definition echo_limit : HandlerFn :=
  fun input _ _ => Normal (JObject [("limit", js_get input "limit")]).

Definition always_ok : Network :=
  fun _ _ => FetchResponse true (Normal (JObject [("success", JBool true)])).

Definition update_user_42 : JsValue :=
  JObject [("id", JString "42"); ("name", JString "New Name")].

Definition fresh_entry (key : string) : CacheEntry :=
  {| entry_key := JString key; entry_data := JNull; entry_stale := false |}.

Definition sample_cache : gmap string CacheEntry :=
  <["/api/users/42" := fresh_entry "/api/users/42"]>
    (<["/api/users/42?tab=posts" := fresh_entry "/api/users/42?tab=posts"]>
       (<["/api/users/7" := fresh_entry "/api/users/7"]> ∅)).

Definition always_500 : Network :=
  fun _ _ => FetchResponse false (Normal (JObject [("error", JString "boom")])).

Definition optimistic_user : TriggerOptions :=
  {| optimisticData := JObject [("id", JString "42"); ("name", JString "New Name")];
     rollbackOnError := None;
     revalidate := None |}.

Definition optimistic_zero : TriggerOptions :=
  {| optimisticData := JNumber 0; rollbackOnError := Some true; revalidate := None |}.

(** ** The query hook ([useQuery] of [lib/typed-client.ts]) *)

(** Bytes that [URLSearchParams] leaves as they are: ASCII letters and
    digits and the four characters [*], [-], [.] and [_]. *)
Definition urlencoded_safe (c : ascii) : bool :=
  let n := N_of_ascii c in
  ((48 <=? n) && (n <=? 57) || (65 <=? n) && (n <=? 90)
   || (97 <=? n) && (n <=? 122)
   || (n =? 42) || (n =? 45) || (n =? 46) || (n =? 95))%N.

Definition hex_digit (n : N) : ascii :=
  ascii_of_N (if (n <? 10)%N then 48 + n else 55 + n)%N.

(** One byte of the [application/x-www-form-urlencoded] serialisation. *)
Definition urlencode_byte (c : ascii) : string :=
  if urlencoded_safe c then String c EmptyString
  else if Ascii.eqb c " " then String "+" EmptyString
  else String "%"
         (String (hex_digit (N_of_ascii c / 16))
            (String (hex_digit (N_of_ascii c mod 16)) EmptyString)).

Fixpoint urlencode (s : string) : string :=
  match s with
  | EmptyString => EmptyString
  | String c rest => urlencode_byte c +:+ urlencode rest
  end.

Fixpoint join_with (sep : string) (l : list string) : string :=
  match l with
  | [] => EmptyString
  | x :: rest =>
      match rest with
      | [] => x
      | _ :: _ => x +:+ sep +:+ join_with sep rest
      end
  end.

(** [new URLSearchParams(record)]: one pair per property, the value
    converted to a string. *)
Definition URLSearchParams_of_record (record : Obj.t) : list (string * string) :=
  map (fun kv => (fst kv, js_String (snd kv))) record.

(** [searchParams.toString()]. *)
Definition URLSearchParams_toString (pairs : list (string * string)) : string :=
  join_with "&"
    (map (fun kv => urlencode (fst kv) +:+ "=" +:+ urlencode (snd kv)) pairs).

(** The options of [useQuery]. *)
Record QueryOptions : Type := {
  enabled : option bool;
  refreshInterval : option Z;
  revalidateOnFocus : option bool;
  fallbackData : JsValue
}.

(** [options?.enabled !== false]. *)
Definition opt_enabled (options : option QueryOptions) : bool :=
  match options with
  | Some o => match enabled o with Some false => false | _ => true end
  | None => true
  end.

(** One turn of the loop of [useQuery]: the state is [finalRoute], [params]
    and [queryParams]. *)
Definition query_step (acc : string * Obj.t * Obj.t) (kv : string * JsValue)
  : string * Obj.t * Obj.t :=
  let '(finalRoute, params, queryParams) := acc in
  if js_includes (placeholder (fst kv)) finalRoute then
    (js_replace (placeholder (fst kv)) (js_String (snd kv)) finalRoute,
     assign_property (fst kv) (snd kv) params, queryParams)
  else
    (finalRoute, params, assign_property (fst kv) (snd kv) queryParams).

Definition query_parts (route : string) (input : JsValue)
  : string * Obj.t * Obj.t :=
  fold_left query_step (input_entries input)
    (@pair (string * Obj.t) Obj.t (@pair string Obj.t route []) []).

Definition queryString (queryParams : Obj.t) : string :=
  if (0 <? length (Obj.keys queryParams))%nat
  then "?" +:+ URLSearchParams_toString (URLSearchParams_of_record queryParams)
  else EmptyString.

(** The key [useQuery] hands to [useSWR]: [None] is [null]. *)
Definition query_key (route : string) (input : JsValue)
    (options : option QueryOptions) : option string :=
  let '(finalRoute, _, queryParams) := query_parts route input in
  if opt_enabled options then Some (finalRoute +:+ queryString queryParams)
  else None.

(** The configuration [useQuery] hands to [useSWR]. *)
Record SWRConfig : Type := {
  swr_refreshInterval : option Z;
  swr_revalidateOnFocus : bool;
  swr_fallbackData : JsValue
}.

Definition query_config (options : option QueryOptions) : SWRConfig :=
  {| swr_refreshInterval :=
       match options with Some o => refreshInterval o | None => None end;
     swr_revalidateOnFocus :=
       match options with
       | Some o => match revalidateOnFocus o with Some b => b | None => true end
       | None => true
       end;
     swr_fallbackData :=
       match options with Some o => fallbackData o | None => JUndefined end |}.

(** ** Reading a query string back ([url.searchParams] in the adapter) *)

(** Splitting at every occurrence of a byte. *)
Fixpoint split_on (sep : ascii) (s : string) : list string :=
  match s with
  | EmptyString => [EmptyString]
  | String c rest =>
      if Ascii.eqb c sep then EmptyString :: split_on sep rest
      else match split_on sep rest with
           | x :: xs => String c x :: xs
           | [] => [String c EmptyString]
           end
  end.

(** The text before the first occurrence of a byte and the text after it;
    the whole text and nothing when the byte does not occur. *)
Fixpoint split_name_value (sep : ascii) (s : string) : string * string :=
  match s with
  | EmptyString => (EmptyString, EmptyString)
  | String c rest =>
      if Ascii.eqb c sep then (EmptyString, rest)
      else let '(name, value) := split_name_value sep rest in
           (String c name, value)
  end.

Fixpoint plus_to_space (s : string) : string :=
  match s with
  | EmptyString => EmptyString
  | String c rest =>
      String (if Ascii.eqb c "+" then " "%char else c) (plus_to_space rest)
  end.

Definition hex_value (c : ascii) : option N :=
  let n := N_of_ascii c in
  if ((48 <=? n) && (n <=? 57))%N then Some (n - 48)%N
  else if ((65 <=? n) && (n <=? 70))%N then Some (n - 55)%N
  else if ((97 <=? n) && (n <=? 102))%N then Some (n - 87)%N
  else None.

(** Percent-decoding: a [%] that is not followed by two hexadecimal digits
    stands for itself. *)
Fixpoint percent_decode (s : string) : string :=
  match s with
  | EmptyString => EmptyString
  | String c rest =>
      if Ascii.eqb c "%" then
        match rest with
        | String a (String b rest') =>
            match hex_value a, hex_value b with
            | Some x, Some y =>
                String (ascii_of_N (16 * x + y)) (percent_decode rest')
            | _, _ => String c (percent_decode rest)
            end
        | _ => String c (percent_decode rest)
        end
      else String c (percent_decode rest)
  end.

(** The [application/x-www-form-urlencoded] parser that fills
    [url.searchParams] from the query of the URL: empty pieces are skipped,
    a piece without [=] has an empty value. *)
Definition urlencoded_parse (query : string) : list (string * string) :=
  omap (fun piece =>
          match piece with
          | EmptyString => None
          | _ =>
              let '(name, value) := split_name_value "=" piece in
              Some (percent_decode (plus_to_space name),
                    percent_decode (plus_to_space value))
          end)
       (split_on "&" query).

(** ** Vocabulary of the further statements *)

(** The schema parses and the logged errors recorded in a trace. *)
Definition safe_parses (tr : list ServerEvent) : list JsValue :=
  omap (fun ev => match ev with EvSafeParse input => Some input | _ => None end) tr.

Definition console_errors (tr : list ServerEvent) : list Thrown :=
  omap (fun ev => match ev with EvConsoleError e => Some e | _ => None end) tr.

(** The bytes a serialised query string is made of. *)
Definition query_byte (c : ascii) : bool :=
  urlencoded_safe c || Ascii.eqb c "+" || Ascii.eqb c "%"
  || Ascii.eqb c "=" || Ascii.eqb c "&".

Fixpoint all_bytes (p : ascii -> bool) (s : string) : bool :=
  match s with
  | EmptyString => true
  | String c rest => p c && all_bytes p rest
  end.

(** ** Further sample handlers and requests *)

Definition returns_nothing : HandlerFn := fun _ _ _ => Normal JUndefined.

Definition sparse_result : HandlerFn :=
  fun _ _ _ =>
    Normal (JObject [("tags", JArray [JString "a"; JUndefined]);
                     ("next", JUndefined)]).

(** A key that names a placeholder of the template. *)
Definition is_param (segs : list Segment) (k : string) : bool :=
  existsb (String.eqb k) (param_names segs).

(** The entries of an input that fill a placeholder, and the others. *)
Definition path_entries (segs : list Segment) (es : list (string * JsValue))
  : list (string * JsValue) :=
  List.filter (fun kv => is_param segs (fst kv)) es.

Definition other_entries (segs : list Segment) (es : list (string * JsValue))
  : list (string * JsValue) :=
  List.filter (fun kv => negb (is_param segs (fst kv))) es.

(** The texts of the values of an input, as the loops insert them. *)
Definition entry_texts (es : list (string * JsValue)) : list (string * string) :=
  map (fun kv => (fst kv, js_String (snd kv))) es.

(** No key holds a closing bracket, and the text of a value that fills a
    placeholder holds no opening bracket and no dollar sign. *)
Definition plain_input (segs : list Segment) (es : list (string * JsValue)) : bool :=
  forallb
    (fun kv =>
       negb (has_char "]" (fst kv)) &&
       (negb (is_param segs (fst kv)) ||
        negb (has_char "[" (js_String (snd kv))) &&
        negb (has_char "$" (js_String (snd kv)))))
    es.

Definition optimistic_no_rollback : TriggerOptions :=
  {| optimisticData := JObject [("id", JString "42"); ("name", JString "New Name")];
     rollbackOnError := Some false;
     revalidate := None |}.

Definition new_post : JsValue :=
  JObject [("title", JString "New Post"); ("category", JString "tech & life")].

Definition new_post_with_proto : JsValue :=
  JObject [("title", JString "New Post"); ("__proto__", JNull);
           ("category", JString "tech & life")].

Definition posts_query : JsValue :=
  JObject [("category", JString "tech & life"); ("limit", JNumber 10)].

Definition posts_request : NextRequest :=
  {| searchParams := [("category", "tech & life"); ("limit", "10")];
     json := Throw (ThrownError "no body") |}.

(** * Properties *)

Example buildRoute_users_42 :
  buildRoute "/api/users/[id]" [("id", "42")] = "/api/users/42".
Proof. reflexivity. Qed.

Example buildRoute_dollar :
  buildRoute "/api/users/[id]" [("id", "$&")] = "/api/users/[id]".
Proof. reflexivity. Qed.

Example js_String_array :
  js_String (JArray [JNumber 1; JNull; JString "a"; JNumber (-20)]) = "1,,a,-20".
Proof. vm_compute. reflexivity. Qed.

(** ** Objects *)

Section ObjFacts.

Lemma get_set (k k' : string) (v : JsValue) (o : Obj.t) :
  Obj.get k (Obj.set k' v o) = if String.eqb k k' then Some v else Obj.get k o.
Proof.
  induction o as [|[k0 v0] o IH]; simpl.
  - reflexivity.
  - destruct (String.eqb_spec k' k0) as [->|Hne]; simpl.
    + destruct (String.eqb k k0); reflexivity.
    + rewrite IH. destruct (String.eqb_spec k k0) as [->|Hne'].
      * destruct (String.eqb_spec k0 k') as [E|_]; [congruence | reflexivity].
      * reflexivity.
Qed.

Lemma get_assign (k : string) (es : list (string * JsValue)) (t : Obj.t) :
  Obj.get k (Obj.assign t es) =
  match last_value k es with Some v => Some v | None => Obj.get k t end.
Proof.
  revert t. induction es as [|[k' v] es IH]; intros t; simpl.
  - reflexivity.
  - unfold Obj.assign in *. simpl. rewrite IH, get_set.
    destruct (last_value k es); [reflexivity|].
    destruct (String.eqb k k'); reflexivity.
Qed.

Lemma keys_set_in (k k' : string) (v : JsValue) (o : Obj.t) :
  In k (Obj.keys (Obj.set k' v o)) -> k = k' \/ In k (Obj.keys o).
Proof.
  induction o as [|[k0 v0] o IH]; simpl.
  - intros [<-|[]]. now left.
  - destruct (String.eqb_spec k' k0) as [->|Hne]; simpl.
    + intros [<-|H]; auto.
    + intros [<-|H]; auto. destruct (IH H); auto.
Qed.

Lemma NoDup_keys_set (k : string) (v : JsValue) (o : Obj.t) :
  List.NoDup (Obj.keys o) -> List.NoDup (Obj.keys (Obj.set k v o)).
Proof.
  induction o as [|[k0 v0] o IH]; simpl; intros Hnd.
  - constructor; [intros [] | constructor].
  - inversion Hnd as [|? ? Hnotin Hnd']; subst.
    destruct (String.eqb_spec k k0) as [->|Hne]; simpl.
    + constructor; assumption.
    + constructor; [|auto].
      intros Hin. destruct (keys_set_in _ _ _ _ Hin); congruence.
Qed.

Lemma NoDup_keys_assign (es : list (string * JsValue)) (t : Obj.t) :
  List.NoDup (Obj.keys t) -> List.NoDup (Obj.keys (Obj.assign t es)).
Proof.
  revert t. induction es as [|[k v] es IH]; intros t Hnd; simpl; [assumption|].
  apply IH, NoDup_keys_set, Hnd.
Qed.

Lemma last_value_None (k : string) (o : Obj.t) :
  ~ In k (Obj.keys o) -> last_value k o = None.
Proof.
  induction o as [|[k0 v0] o IH]; simpl; intros Hnotin; [reflexivity|].
  rewrite IH by tauto.
  destruct (String.eqb_spec k k0) as [->|_]; [tauto | reflexivity].
Qed.

Lemma get_None (k : string) (o : Obj.t) :
  ~ In k (Obj.keys o) -> Obj.get k o = None.
Proof.
  induction o as [|[k0 v0] o IH]; simpl; intros Hnotin; [reflexivity|].
  destruct (String.eqb_spec k k0) as [->|_]; [tauto | apply IH; tauto].
Qed.

Lemma last_value_NoDup (k : string) (o : Obj.t) :
  List.NoDup (Obj.keys o) -> last_value k o = Obj.get k o.
Proof.
  induction o as [|[k0 v0] o IH]; simpl; intros Hnd; [reflexivity|].
  inversion Hnd as [|? ? Hnotin Hnd']; subst.
  destruct (String.eqb_spec k k0) as [->|Hne].
  - now rewrite last_value_None.
  - rewrite IH by assumption. destruct (Obj.get k o); reflexivity.
Qed.

(** Copying the properties of a well-formed object onto an empty one
    gives the same properties in the same order. *)
Lemma assign_app_NoDup (es : list (string * JsValue)) (t : Obj.t) :
  List.NoDup (Obj.keys (t ++ es)) -> Obj.assign t es = t ++ es.
Proof.
  revert t. induction es as [|[k v] es IH]; intros t Hnd; simpl.
  - now rewrite app_nil_r.
  - assert (Hset : Obj.set k v t = t ++ [(k, v)]).
    { clear IH. induction t as [|[k0 v0] t IHt]; simpl in *; [reflexivity|].
      inversion Hnd as [|? ? Hnotin Hnd']; subst.
      destruct (String.eqb_spec k k0) as [->|Hne].
      - exfalso. apply Hnotin. unfold Obj.keys. rewrite map_app, in_app_iff.
        right. now left.
      - f_equal. apply IHt, Hnd'. }
    unfold Obj.assign in *. simpl. rewrite Hset, IH.
    + now rewrite <- app_assoc.
    + now rewrite <- app_assoc.
Qed.

Lemma fromEntries_NoDup (es : list (string * JsValue)) :
  List.NoDup (Obj.keys es) -> Obj.fromEntries es = es.
Proof. intros H. apply (assign_app_NoDup es []), H. Qed.

End ObjFacts.

(** ** The request adapter *)

Lemma rawInput_lookup (method : string) (req : NextRequest)
    (context : option JsValue) :
  exists raw : Obj.t,
    rawInput method req context = (Normal raw, []) /\
    forall k, Obj.get k raw =
      match last_value k (own_entries (context_params context)) with
      | Some v => Some v
      | None => last_value k (request_fields method req)
      end.
Proof.
  unfold rawInput, request_fields.
  destruct (is_GET_or_DELETE method).
  - eexists; split; [reflexivity|]. intros k.
    unfold Obj.spread2. rewrite !get_assign. simpl own_entries.
    unfold Obj.fromEntries.
    rewrite (last_value_NoDup k (Obj.assign [] (query_entries req)))
      by (apply NoDup_keys_assign; constructor).
    rewrite get_assign. simpl.
    destruct (last_value k (own_entries (context_params context))); [reflexivity|].
    destruct (last_value k (query_entries req)); reflexivity.
  - destruct (json req) as [b|e]; simpl.
    + eexists; split; [reflexivity|]. intros k.
      unfold Obj.spread2. rewrite !get_assign. simpl.
      destruct (last_value k (own_entries (context_params context))); [reflexivity|].
      destruct (last_value k (own_entries b)); reflexivity.
    + eexists; split; [reflexivity|]. intros k.
      unfold Obj.spread2. rewrite !get_assign. simpl.
      destruct (last_value k (own_entries (context_params context))); reflexivity.
Qed.

(** The answer to a thrown value, as the [catch] block builds it. *)
Lemma createMethod_regular (handlers : gmap string Handler) (method : string)
    (req : NextRequest) (context : option JsValue) (f : HandlerFn) (raw : Obj.t) :
  handlers !! method = Some (RegularHandler f) ->
  rawInput method req context = (Normal raw, []) ->
  createMethod handlers method req context =
    let call := EvHandlerCall (JObject raw) (context_params context) in
    match f (JObject raw) req (context_params context) with
    | Normal JUndefined =>
        let e := ThrownError "Value is not JSON serializable" in
        (Normal {| status := 500;
                   body := JObject [("error", JString (thrown_message e))] |},
         [call; EvConsoleError e])
    | Normal v => (Normal {| status := 200; body := v |}, [call])
    | Throw e =>
        (Normal {| status := 500;
                   body := JObject [("error", JString (thrown_message e))] |},
         [call; EvConsoleError e])
    end.
Proof.
  intros Hh Hraw. unfold createMethod. rewrite Hh.
  unfold mbind, eff_bind, try_catch. rewrite Hraw. simpl.
  destruct (f (JObject raw) req (context_params context)) as [[]|e]; reflexivity.
Qed.

Lemma createMethod_schema (handlers : gmap string Handler) (method : string)
    (req : NextRequest) (context : option JsValue) (schema : ZodSchema)
    (handler : HandlerFn) (raw : Obj.t) :
  handlers !! method = Some (SchemaHandler schema handler) ->
  rawInput method req context = (Normal raw, []) ->
  createMethod handlers method req context =
    let parse := EvSafeParse (JObject raw) in
    match safeParse schema (JObject raw) with
    | ParseFailure issues =>
        (Normal {| status := 400;
                   body := JObject [("error", JString "Validation failed");
                                    ("details", JArray (map issue_json issues))] |},
         [parse])
    | ParseSuccess data =>
        let call := EvHandlerCall data (context_params context) in
        match handler data req (context_params context) with
        | Normal JUndefined =>
            let e := ThrownError "Value is not JSON serializable" in
            (Normal {| status := 500;
                       body := JObject [("error", JString (thrown_message e))] |},
             [parse; call; EvConsoleError e])
        | Normal v => (Normal {| status := 200; body := v |}, [parse; call])
        | Throw e =>
            (Normal {| status := 500;
                       body := JObject [("error", JString (thrown_message e))] |},
             [parse; call; EvConsoleError e])
        end
    end.
Proof.
  intros Hh Hraw. unfold createMethod. rewrite Hh.
  unfold mbind, eff_bind, try_catch. rewrite Hraw. simpl.
  destruct (safeParse schema (JObject raw)) as [data|issues]; simpl; [|reflexivity].
  destruct (handler data req (context_params context)) as [[]|e]; reflexivity.
Qed.

(** The earlier adapter is the current one with every handler a plain
    function, so what is proved of [createMethod] holds of it too. *)
Lemma plain_adapter_createMethod (handlers : gmap string HandlerFn)
    (method : string) (req : NextRequest) (context : option JsValue) :
  PlainAdapter.createMethod handlers method req context =
  createMethod (RegularHandler <$> handlers) method req context.
Proof.
  unfold PlainAdapter.createMethod, createMethod. rewrite lookup_fmap.
  destruct (handlers !! method); reflexivity.
Qed.

(** What [rawInput] holds, read off the request and the context. *)
Lemma rawInput_fields (method : string) (req : NextRequest)
    (context : option JsValue) :
  exists raw : Obj.t,
    rawInput method req context = (Normal raw, []) /\
    forall k, Obj.get k raw =
      match last_value k (path_fields context) with
      | Some v => Some v
      | None => last_value k (own_fields method req)
      end.
Proof.
  destruct (rawInput_lookup method req context) as (raw & Hraw & Hget).
  exists raw. split; [exact Hraw|]. intros k. rewrite Hget.
  destruct context; reflexivity.
Qed.

(** C1. The input handed to the handler registered for the method is the
    merge of the request's own fields (the query string for GET and DELETE,
    the parsed JSON body otherwise) with the route's path parameters: every
    key of the path parameters carries the path parameter's value, every
    other key the value the request gave it. *)
Theorem C1_path_parameters_win (handlers : gmap string Handler) (method : string)
    (req : NextRequest) (context : option JsValue) (handlerDef : Handler) :
  handlers !! method = Some handlerDef ->
  exists raw : Obj.t,
    outcome (rawInput method req context) = Normal raw /\
    head (trace (createMethod handlers method req context)) =
      Some (delivery handlerDef (JObject raw)
              match context with Some params => params | None => JUndefined end) /\
    (forall k, Obj.get k raw =
       match last_value k (path_fields context) with
       | Some v => Some v
       | None => last_value k (own_fields method req)
       end) /\
    (forall props k v,
        context = Some (JObject props) ->
        last_value k props = Some v -> Obj.get k raw = Some v) /\
    (forall k, last_value k (path_fields context) = None ->
       Obj.get k raw =
         if String.eqb method "GET" || String.eqb method "DELETE"
         then last_value k
                (map (fun kv => (fst kv, JString (snd kv))) (searchParams req))
         else match json req with
              | Normal b => last_value k (own_entries b)
              | Throw _ => None
              end).
Proof.
  intros Hh.
  destruct (rawInput_fields method req context) as (raw & Hraw & Hget).
  exists raw. split; [now rewrite Hraw|]. split; [|split; [exact Hget|split]].
  - change (match context with Some params => params | None => JUndefined end)
      with (context_params context).
    destruct handlerDef as [f|schema handler].
    + rewrite (createMethod_regular _ _ _ _ _ _ Hh Hraw). simpl.
      destruct (f (JObject raw) req (context_params context)) as [[]|e]; reflexivity.
    + rewrite (createMethod_schema _ _ _ _ _ _ _ Hh Hraw). simpl.
      destruct (safeParse schema (JObject raw)) as [data|issues]; [|reflexivity].
      destruct (handler data req (context_params context)) as [[]|e]; reflexivity.
  - intros props k v -> Hv. rewrite Hget. simpl. now rewrite Hv.
  - intros k Hnone. rewrite Hget, Hnone. unfold own_fields.
    destruct (String.eqb method "GET" || String.eqb method "DELETE");
      [reflexivity|].
    destruct (json req); reflexivity.
Qed.

Lemma C1_path_parameters_win_witness :
  let req := {| searchParams := [("id", "a"); ("page", "2")];
                json := Throw (ThrownError "no body") |} in
  let context := Some (JObject [("id", JString "b")]) in
  exists raw : Obj.t,
    outcome (rawInput "GET" req context) = Normal raw /\
    head (trace (createMethod {["GET" := RegularHandler echo_id]} "GET" req context)) =
      Some (EvHandlerCall (JObject raw) (JObject [("id", JString "b")])) /\
    Obj.get "id" raw = Some (JString "b") /\
    Obj.get "page" raw = Some (JString "2").
Proof.
  intros req context.
  destruct (C1_path_parameters_win {["GET" := RegularHandler echo_id]} "GET"
              req context (RegularHandler echo_id))
    as (raw & Hraw & Hhead & _ & Hpath & Hown).
  - reflexivity.
  - exists raw. split; [exact Hraw|]. split; [exact Hhead|]. split.
    + apply (Hpath [("id", JString "b")] "id"); reflexivity.
    + apply (Hown "page"). reflexivity.
Defined.

Example path_parameter_overrides_query :
  createMethod {["GET" := RegularHandler echo_id]} "GET" get_user_request
    (Some (JObject [("id", JString "b")])) =
  (Normal {| status := 200; body := JObject [("id", JString "b")] |},
   [EvHandlerCall (JObject [("id", JString "b")]) (JObject [("id", JString "b")])]).
Proof. reflexivity. Qed.

(** A POST whose body is not JSON, sent to a route whose schema requires a
    field, is answered with the error status 400. *)
Lemma C2_malformed_body_answered_400 :
  is_GET_or_DELETE "POST" = false /\
  json malformed_post = Throw (ThrownError "Unexpected token") /\
  createMethod users_handlers "POST" malformed_post None =
    (Normal {| status := 400;
               body := JObject
                 [("error", JString "Validation failed");
                  ("details",
                   JArray [JObject [("code", JString "invalid_type");
                                    ("path", JArray [JString "name"]);
                                    ("message", JString "Required")]])] |},
     [EvSafeParse (JObject [])]).
Proof. repeat split. Qed.

(** C2, amended. A body that fails to parse is not itself answered with an
    error on a method other than GET and DELETE: the input is exactly the
    route's path parameters (the empty mapping when there are none), it is
    what the registered handler is given, and the request then takes the
    normal path: 200 with the function's result whenever the function is
    reached (a plain handler, or a schema that accepts that input) and
    returns a value, 400 with the issues when the schema rejects that
    input, 500 when the function throws. *)
Theorem C2_malformed_body_is_empty_input (handlers : gmap string Handler)
    (method : string) (req : NextRequest) (context : option JsValue)
    (e : Thrown) (handlerDef : Handler) :
  String.eqb method "GET" || String.eqb method "DELETE" = false ->
  json req = Throw e ->
  handlers !! method = Some handlerDef ->
  let params := match context with Some p => p | None => JUndefined end in
  let raw := Obj.fromEntries (path_fields context) in
  let run := createMethod handlers method req context in
  (forall k, Obj.get k raw = last_value k (path_fields context)) /\
  (List.NoDup (Obj.keys (path_fields context)) -> raw = path_fields context) /\
  (context = None -> raw = []) /\
  head (trace run) = Some (delivery handlerDef (JObject raw) params) /\
  (forall v,
      handler_result handlerDef (JObject raw) req params = Some (Normal v) ->
      v <> JUndefined ->
      exists r, outcome run = Normal r /\ status r = 200 /\
                body r = v /\ sent_body r = to_json v) /\
  (forall schema handler issues,
      handlerDef = SchemaHandler schema handler ->
      safeParse schema (JObject raw) = ParseFailure issues ->
      outcome run =
        Normal {| status := 400;
                  body := JObject
                    [("error", JString "Validation failed");
                     ("details", JArray (map issue_json issues))] |}) /\
  (forall e',
      handler_result handlerDef (JObject raw) req params = Some (Throw e') ->
      outcome run =
        Normal {| status := 500;
                  body := JObject
                    [("error",
                      JString match e' with
                              | ThrownError m => m
                              | ThrownValue _ => "Internal server error"
                              end)] |}).
Proof.
  intros Hm Hj Hh params raw run. subst run.
  change params with (context_params context) in *.
  assert (Hraw : rawInput method req context = (Normal raw, [])).
  { unfold rawInput, is_GET_or_DELETE. rewrite Hm, Hj.
    destruct context; reflexivity. }
  split.
  { intros k. unfold raw, Obj.fromEntries. rewrite get_assign.
    destruct (last_value k (path_fields context)); reflexivity. }
  split; [apply fromEntries_NoDup|].
  split; [intros ->; reflexivity|].
  destruct handlerDef as [f|schema handler].
  - rewrite (createMethod_regular _ _ _ _ _ _ Hh Hraw). simpl.
    destruct (f (JObject raw) req (context_params context)) as [v|e'] eqn:Hf.
    + split; [destruct v; reflexivity|]. split; [|split].
      * intros v' [= <-] Hv. exists {| status := 200; body := v |}.
        destruct v; try congruence; repeat split.
      * intros schema handler issues [=].
      * intros e' [=].
    + split; [reflexivity|]. split; [|split].
      * intros v [=].
      * intros schema handler issues [=].
      * intros e'' [= <-]. destruct e'; reflexivity.
  - rewrite (createMethod_schema _ _ _ _ _ _ _ Hh Hraw). simpl.
    destruct (safeParse schema (JObject raw)) as [data|issues] eqn:Hp.
    + destruct (handler data req (context_params context)) as [v|e'] eqn:Hf.
      * split; [destruct v; reflexivity|]. split; [|split].
        -- intros v' [= <-] Hv. exists {| status := 200; body := v |}.
           destruct v; try congruence; repeat split.
        -- intros schema' handler' issues [= <- <-]. rewrite Hp. discriminate.
        -- intros e' [=].
      * split; [reflexivity|]. split; [|split].
        -- intros v [=].
        -- intros schema' handler' issues [= <- <-]. rewrite Hp. discriminate.
        -- intros e'' [= <-]. destruct e'; reflexivity.
    + split; [reflexivity|]. split; [|split].
      * intros v [=].
      * intros schema' handler' issues' [= <- <-]. rewrite Hp.
        intros [= <-]. reflexivity.
      * intros e' [=].
Qed.

Lemma C2_malformed_body_is_empty_input_witness :
  let run := createMethod {["PUT" := withSchema default_limit echo_id]} "PUT"
               {| searchParams := [("id", "a")];
                  json := Throw (ThrownError "Unexpected token") |}
               (Some (JObject [("id", JString "7")])) in
  head (trace run) = Some (EvSafeParse (JObject [("id", JString "7")])) /\
  exists r, outcome run = Normal r /\ status r = 200 /\
            body r = JObject [("id", JString "7")] /\
            sent_body r = JObject [("id", JString "7")].
Proof.
  destruct (C2_malformed_body_is_empty_input
              {["PUT" := withSchema default_limit echo_id]} "PUT"
              {| searchParams := [("id", "a")];
                 json := Throw (ThrownError "Unexpected token") |}
              (Some (JObject [("id", JString "7")]))
              (ThrownError "Unexpected token") (withSchema default_limit echo_id))
    as (_ & _ & _ & Hhead & Hok & _ & _).
  - reflexivity.
  - reflexivity.
  - reflexivity.
  - split; [exact Hhead|].
    apply (Hok (JObject [("id", JString "7")])); [reflexivity | discriminate].
Defined.

Example malformed_put_passes_schema :
  createMethod {["PUT" := withSchema default_limit echo_id]} "PUT" malformed_post
    (Some (JObject [("id", JString "7")])) =
  (Normal {| status := 200; body := JObject [("id", JString "7")] |},
   [EvSafeParse (JObject [("id", JString "7")]);
    EvHandlerCall (JObject [("id", JString "7"); ("limit", JString "10")])
      (JObject [("id", JString "7")])]).
Proof. reflexivity. Qed.

Example malformed_put_reaches_handler :
  createMethod {["PUT" := RegularHandler echo_id]} "PUT" malformed_post
    (Some (JObject [("id", JString "7")])) =
  (Normal {| status := 200; body := JObject [("id", JString "7")] |},
   [EvHandlerCall (JObject [("id", JString "7")]) (JObject [("id", JString "7")])]).
Proof. reflexivity. Qed.

(** C3. When the handler throws or rejects, the adapter answers 500 with
    body [{error: m}], where [m] is the message of a thrown [Error] and
    ["Internal server error"] for any other thrown value; an [Error] with
    message ["boom"] gives [{error: "boom"}]; the thrown value is logged; and
    the adapter itself always returns a response, whatever the handler does. *)
Theorem C3_handler_fault_is_500 :
  (forall (handlers : gmap string Handler) method req context handlerDef raw e,
      handlers !! method = Some handlerDef ->
      outcome (rawInput method req context) = Normal raw ->
      handler_result handlerDef (JObject raw) req (context_params context)
        = Some (Throw e) ->
      outcome (createMethod handlers method req context) =
        Normal {| status := 500;
                  body := JObject
                    [("error",
                      JString match e with
                              | ThrownError m => m
                              | ThrownValue _ => "Internal server error"
                              end)] |} /\
      last (trace (createMethod handlers method req context)) =
        Some (EvConsoleError e)) /\
  (forall (handlers : gmap string Handler) method req context handlerDef raw,
      handlers !! method = Some handlerDef ->
      outcome (rawInput method req context) = Normal raw ->
      handler_result handlerDef (JObject raw) req (context_params context)
        = Some (Throw (ThrownError "boom")) ->
      outcome (createMethod handlers method req context) =
        Normal {| status := 500;
                  body := JObject [("error", JString "boom")] |}) /\
  (forall (handlers : gmap string Handler) method req context,
      exists r, outcome (createMethod handlers method req context) = Normal r).
Proof.
  assert (Hmain :
    forall (handlers : gmap string Handler) method req context handlerDef raw e,
      handlers !! method = Some handlerDef ->
      outcome (rawInput method req context) = Normal raw ->
      handler_result handlerDef (JObject raw) req (context_params context)
        = Some (Throw e) ->
      createMethod handlers method req context =
        (Normal {| status := 500;
                   body := JObject [("error", JString (thrown_message e))] |},
         removelast (trace (createMethod handlers method req context))
           ++ [EvConsoleError e])).
  { intros handlers method req context handlerDef raw e Hh Hraw Hres.
    destruct (rawInput_lookup method req context) as (raw' & Hraw' & _).
    rewrite Hraw' in Hraw. injection Hraw as <-.
    destruct handlerDef as [f|schema handler]; simpl in Hres.
    - rewrite (createMethod_regular _ _ _ _ _ _ Hh Hraw'). simpl.
      injection Hres as ->. reflexivity.
    - rewrite (createMethod_schema _ _ _ _ _ _ _ Hh Hraw'). simpl.
      destruct (safeParse schema (JObject raw')) as [data|issues];
        [|discriminate].
      injection Hres as ->. reflexivity. }
  split; [|split].
  - intros handlers method req context handlerDef raw e Hh Hraw Hres.
    rewrite (Hmain _ _ _ _ _ _ _ Hh Hraw Hres). split.
    + destruct e; reflexivity.
    + unfold trace. simpl. apply last_snoc.
  - intros handlers method req context handlerDef raw Hh Hraw Hres.
    rewrite (Hmain _ _ _ _ _ _ _ Hh Hraw Hres). reflexivity.
  - intros handlers method req context.
    destruct (handlers !! method) as [handlerDef|] eqn:Hh.
    + destruct (rawInput_lookup method req context) as (raw & Hraw & _).
      destruct handlerDef as [f|schema handler].
      * rewrite (createMethod_regular _ _ _ _ _ _ Hh Hraw). simpl.
        destruct (f (JObject raw) req (context_params context)) as [[]|e];
          eexists; reflexivity.
      * rewrite (createMethod_schema _ _ _ _ _ _ _ Hh Hraw). simpl.
        destruct (safeParse schema (JObject raw)) as [data|issues];
          [|eexists; reflexivity].
        destruct (handler data req (context_params context)) as [[]|e];
          eexists; reflexivity.
    + unfold createMethod. rewrite Hh. eexists; reflexivity.
Qed.

Lemma C3_handler_fault_is_500_witness :
  outcome (createMethod {["POST" := RegularHandler boom]} "POST"
             malformed_post None) =
    Normal {| status := 500; body := JObject [("error", JString "boom")] |}.
Proof.
  apply (proj1 (proj2 C3_handler_fault_is_500)
           {["POST" := RegularHandler boom]} "POST" malformed_post None
           (RegularHandler boom) []).
  - reflexivity.
  - reflexivity.
  - reflexivity.
Defined.

(** C4. With a schema handler the merged input is parsed by the schema
    first.  When parsing fails the response is 400 with body
    [{error: "Validation failed", details}], [details] listing the issues
    (each with its path and message), and the function is not called.  When
    parsing succeeds the function is called, once, with the parsed data and
    not with the raw merged input. *)
Theorem C4_schema_validation (handlers : gmap string Handler) (method : string)
    (req : NextRequest) (context : option JsValue) (schema : ZodSchema)
    (handler : HandlerFn) :
  handlers !! method = Some (SchemaHandler schema handler) ->
  exists raw : Obj.t,
    outcome (rawInput method req context) = Normal raw /\
    (forall issues,
        safeParse schema (JObject raw) = ParseFailure issues ->
        createMethod handlers method req context =
          (Normal {| status := 400;
                     body := JObject
                       [("error", JString "Validation failed");
                        ("details", JArray (map issue_json issues))] |},
           [EvSafeParse (JObject raw)]) /\
        handler_calls (trace (createMethod handlers method req context)) = [] /\
        (forall i, In i issues ->
           js_get (issue_json i) "path" = JArray (path i) /\
           js_get (issue_json i) "message" = JString (message i))) /\
    (forall data,
        safeParse schema (JObject raw) = ParseSuccess data ->
        handler_calls (trace (createMethod handlers method req context)) =
          [(data, context_params context)]).
Proof.
  intros Hh.
  destruct (rawInput_lookup method req context) as (raw & Hraw & _).
  exists raw. split; [now rewrite Hraw|].
  rewrite (createMethod_schema _ _ _ _ _ _ _ Hh Hraw). simpl. split.
  - intros issues ->. split; [reflexivity|]. split; [reflexivity|].
    intros i _. split; reflexivity.
  - intros data ->.
    destruct (handler data req (context_params context)) as [[]|e]; reflexivity.
Qed.

Lemma C4_schema_validation_witness :
  exists raw : Obj.t,
    outcome (rawInput "POST" malformed_post None) = Normal raw /\
    (forall issues,
        safeParse name_required (JObject raw) = ParseFailure issues ->
        createMethod users_handlers "POST" malformed_post None =
          (Normal {| status := 400;
                     body := JObject
                       [("error", JString "Validation failed");
                        ("details", JArray (map issue_json issues))] |},
           [EvSafeParse (JObject raw)]) /\
        handler_calls (trace (createMethod users_handlers "POST" malformed_post None)) = [] /\
        (forall i, In i issues ->
           js_get (issue_json i) "path" = JArray (path i) /\
           js_get (issue_json i) "message" = JString (message i))) /\
    (forall data,
        safeParse name_required (JObject raw) = ParseSuccess data ->
        handler_calls (trace (createMethod users_handlers "POST" malformed_post None)) =
          [(data, context_params None)]).
Proof.
  apply (C4_schema_validation users_handlers "POST" malformed_post None
           name_required create_user).
  reflexivity.
Defined.

Example validated_value_reaches_function :
  createMethod {["GET" := withSchema default_limit echo_limit]} "GET"
    {| searchParams := []; json := Throw (ThrownError "no body") |} None =
  (Normal {| status := 200; body := JObject [("limit", JString "10")] |},
   [EvSafeParse (JObject []);
    EvHandlerCall (JObject [("limit", JString "10")]) JUndefined]).
Proof. reflexivity. Qed.

(** C5. A method with no handler registered is answered 405 with body
    [{error: "Method <M> not allowed"}], whatever the query, the body and
    the path parameters are, and nothing else is done. *)
Theorem C5_method_not_allowed (handlers : gmap string Handler) (method : string)
    (req : NextRequest) (context : option JsValue) :
  handlers !! method = None ->
  createMethod handlers method req context =
    (Normal {| status := 405;
               body := JObject
                 [("error", JString ("Method " +:+ method +:+ " not allowed"))] |},
     []).
Proof. intros Hh. unfold createMethod. rewrite Hh. reflexivity. Qed.

Lemma C5_method_not_allowed_witness :
  createMethod users_handlers "PATCH" malformed_post
    (Some (JObject [("id", JString "7")])) =
    (Normal {| status := 405;
               body := JObject
                 [("error", JString ("Method " +:+ "PATCH" +:+ " not allowed"))] |},
     []).
Proof.
  apply (C5_method_not_allowed users_handlers "PATCH" malformed_post
           (Some (JObject [("id", JString "7")]))).
  reflexivity.
Defined.


(** ** The client *)

Lemma strip_prefix_spec (p s rest : string) :
  strip_prefix p s = Some rest <-> s = p +:+ rest.
Proof.
  revert s. induction p as [|a p IH]; intros s; simpl.
  - split; [now intros [= ->] | now intros ->].
  - destruct s as [|b s]; [split; discriminate|].
    destruct (Ascii.eqb_spec a b) as [->|Hne].
    + rewrite IH. split; [now intros -> | now intros [= ->]].
    + split; [discriminate | intros [= ? ?]; congruence].
Qed.

Lemma js_startsWith_spec (s p : string) :
  js_startsWith s p = true <-> exists rest, s = p +:+ rest.
Proof.
  unfold js_startsWith. destruct (strip_prefix p s) as [rest|] eqn:E.
  - apply strip_prefix_spec in E. split; eauto.
  - split; [discriminate|]. intros [rest Hrest].
    apply strip_prefix_spec in Hrest. congruence.
Qed.

Lemma js_replace_absent (pat rep s : string) :
  js_includes pat s = false -> js_replace pat rep s = s.
Proof.
  unfold js_includes, js_replace.
  destruct (split_at_first pat s) as [[pre post]|]; [discriminate | reflexivity].
Qed.

Lemma base_route_step_replace (r : string) (kv : string * JsValue) :
  base_route_step r kv = js_replace (placeholder (fst kv)) (js_String (snd kv)) r.
Proof.
  unfold base_route_step.
  destruct (js_includes (placeholder (fst kv)) r) eqn:E; [reflexivity|].
  symmetry. now apply js_replace_absent.
Qed.

(** The route [trigger] invalidates is [buildRoute] at the texts of the
    input's values. *)
Lemma base_route_buildRoute (route : string) (input : JsValue) :
  base_route route input =
  buildRoute route
    (map (fun kv => (fst kv, js_String (snd kv))) (input_entries input)).
Proof.
  unfold base_route, buildRoute.
  generalize (input_entries input) as es. intros es. revert route.
  induction es as [|kv es IH]; intros route; simpl; [reflexivity|].
  rewrite base_route_step_replace. apply IH.
Qed.

(** Both loops over the input compute the same route. *)
Lemma mutation_request_route (route method : string) (input : JsValue) :
  fst (mutation_request route method input) = base_route route input.
Proof.
  unfold mutation_request, base_route.
  assert (H : forall es r (b : list (string * JsValue)),
             fst (fold_left mutation_step es
                    (@pair string (list (string * JsValue)) r b)) =
             fold_left base_route_step es r).
  { induction es as [|kv es IH]; intros r b; simpl; [reflexivity|].
    unfold base_route_step.
    destruct (js_includes (placeholder (fst kv)) r); apply IH. }
  specialize (H (input_entries input) route []). revert H.
  destruct (fold_left mutation_step (input_entries input) (route, [])).
  intros H. exact H.
Qed.

Lemma fetcher_trace (fetch : Network) (url : string) (options : RequestInit) :
  trace (fetcher fetch url options) = [EvFetch url options].
Proof.
  unfold fetcher, trace, mbind, eff_bind. simpl.
  destruct (fetch url options) as [e|[] [v|e]]; simpl; try reflexivity.
  destruct (read_error_field v); reflexivity.
Qed.

Lemma mutationFn_trace (fetch : Network) (route method : string) (input : JsValue) :
  trace (mutationFn fetch route method input) =
  [EvFetch (base_route route input) (snd (mutation_request route method input))].
Proof.
  unfold mutationFn. rewrite <- (mutation_request_route route method input).
  destruct (mutation_request route method input) as [url init].
  apply fetcher_trace.
Qed.

(** The run of [trigger], case by case. *)
Lemma trigger_run (fetch : Network) (route method : string) (input : JsValue)
    (options : option TriggerOptions) :
  let d := opt_optimisticData options in
  let optimistic := if js_truthy d then [EvMutateData route d] else [] in
  let call := [EvFetch (base_route route input)
                 (snd (mutation_request route method input))] in
  trigger fetch route method input options =
    match outcome (mutationFn fetch route method input) with
    | Normal result =>
        (Normal result,
         optimistic ++ call ++
         (if opt_revalidate options
          then [EvMutatePrefix (base_route route input)] else []))
    | Throw e =>
        (Throw e,
         optimistic ++ call ++
         (if opt_rollbackOnError options && js_truthy d
          then [EvMutateKey route] else []))
    end.
Proof.
  intros d optimistic call.
  pose proof (mutationFn_trace fetch route method input) as Ht.
  unfold trigger, try_catch, mbind, eff_bind, trace, outcome in *.
  subst optimistic call. fold d.
  destruct (mutationFn fetch route method input) as [[result|e] tr].
  - simpl in Ht. subst tr.
    destruct (js_truthy d), (opt_revalidate options); reflexivity.
  - simpl in Ht. subst tr.
    destruct (js_truthy d), (opt_rollbackOnError options); reflexivity.
Qed.

Lemma cache_run_app (a b : list ClientEvent) (c : gmap string CacheEntry) :
  cache_run (a ++ b) c = cache_run b (cache_run a c).
Proof. unfold cache_run. apply fold_left_app. Qed.

Lemma prefix_filter_spec (baseRoute : string) (key : JsValue) :
  prefix_filter baseRoute key = true <->
  exists rest, key = JString (baseRoute +:+ rest).
Proof.
  destruct key; simpl; try (split; [discriminate | intros [? [=]]]).
  rewrite js_startsWith_spec. split.
  - intros [rest ->]. eauto.
  - intros [rest [= ->]]. eauto.
Qed.


Example trigger_put_user_42 :
  trigger always_ok "/api/users/[id]" "PUT" update_user_42 None =
  (Normal (JObject [("success", JBool true)]),
   [EvFetch "/api/users/42"
      {| init_method := "PUT";
         init_body := Some (JObject [("name", JString "New Name")]) |};
    EvMutatePrefix "/api/users/42"]).
Proof. reflexivity. Qed.

Example revalidation_marks_prefix_entries :
  let after :=
    cache_run
      (trace (trigger always_ok "/api/users/[id]" "PUT" update_user_42 None))
      sample_cache in
  entry_stale <$> after !! "/api/users/42" = Some true /\
  entry_stale <$> after !! "/api/users/42?tab=posts" = Some true /\
  entry_stale <$> after !! "/api/users/7" = Some false.
Proof. vm_compute. repeat split. Qed.

(** Called with the optimistic data [0] and [rollbackOnError: true], a
    rejected [trigger] asks the cache for nothing: the only call is the
    request, and no refetch of the route template follows. *)
Lemma C7_zero_is_not_rolled_back :
  optimisticData optimistic_zero = JNumber 0 /\
  rollbackOnError optimistic_zero = Some true /\
  trigger always_500 "/api/users/[id]" "PUT" update_user_42 (Some optimistic_zero) =
    (Throw (ThrownError "boom"),
     [EvFetch "/api/users/42"
        {| init_method := "PUT";
           init_body := Some (JObject [("name", JString "New Name")]) |}]).
Proof. repeat split. Qed.

(** C7, amended. When [trigger] was given truthy optimistic data, the
    request rejects and [rollbackOnError] is not [false], the entry of the
    unresolved route template, the one the optimistic value was written to before the
    request, is forced to refetch after it, and the error of the request is
    thrown to the caller. *)
Theorem C7_rollback_on_error (fetch : Network) (route method : string)
    (input : JsValue) (o : TriggerOptions) (e : Thrown) :
  js_truthy (optimisticData o) = true ->
  opt_rollbackOnError (Some o) = true ->
  outcome (mutationFn fetch route method input) = Throw e ->
  let run := trigger fetch route method input (Some o) in
  outcome run = Throw e /\
  trace run =
    [EvMutateData route (optimisticData o);
     EvFetch (base_route route input) (snd (mutation_request route method input));
     EvMutateKey route] /\
  forall cache : gmap string CacheEntry,
    exists entry,
      cache_run (trace run) cache !! route = Some entry /\
      entry_data entry = optimisticData o /\
      entry_stale entry = true.
Proof.
  intros Hd Hroll Hfail run. subst run.
  pose proof (trigger_run fetch route method input (Some o)) as Hrun.
  simpl in Hrun, Hroll. rewrite Hfail, Hd, Hroll in Hrun.
  simpl in Hrun. rewrite Hrun. clear Hrun.
  split; [reflexivity|]. split; [reflexivity|].
  intros cache. unfold trace, cache_run. simpl.
  unfold cache_refetch, cache_set.
  destruct (cache !! route) as [e0|] eqn:E.
  - eexists. rewrite lookup_alter_eq, lookup_insert_eq. simpl.
    split; [reflexivity|]. split; reflexivity.
  - eexists. rewrite lookup_alter_eq, lookup_insert_eq. simpl.
    split; [reflexivity|]. split; reflexivity.
Qed.

Lemma C7_rollback_on_error_witness :
  let run := trigger always_500 "/api/users/[id]" "PUT" update_user_42
               (Some optimistic_user) in
  outcome run = Throw (ThrownError "boom") /\
  trace run =
    [EvMutateData "/api/users/[id]" (optimisticData optimistic_user);
     EvFetch (base_route "/api/users/[id]" update_user_42)
       (snd (mutation_request "/api/users/[id]" "PUT" update_user_42));
     EvMutateKey "/api/users/[id]"] /\
  forall cache : gmap string CacheEntry,
    exists entry,
      cache_run (trace run) cache !! "/api/users/[id]" = Some entry /\
      entry_data entry = optimisticData optimistic_user /\
      entry_stale entry = true.
Proof.
  apply (C7_rollback_on_error always_500 "/api/users/[id]" "PUT" update_user_42
           optimistic_user (ThrownError "boom")).
  - reflexivity.
  - reflexivity.
  - reflexivity.
Defined.

Lemma mutation_request_DELETE (route : string) (input : JsValue) :
  snd (mutation_request route "DELETE" input) =
  {| init_method := "DELETE"; init_body := None |}.
Proof.
  unfold mutation_request.
  destruct (fold_left mutation_step (input_entries input) (route, []))
    as [finalRoute bodyData].
  simpl. now rewrite andb_false_r.
Qed.

(** C9. A [trigger] of a DELETE mutation issues one request, and that
    request has no body, whatever the input is and however many of its
    fields are not path parameters. *)
Theorem C9_delete_sends_no_body (fetch : Network) (route : string)
    (input : JsValue) (options : option TriggerOptions) :
  fetch_calls (trace (trigger fetch route "DELETE" input options)) =
    [(base_route route input,
      {| init_method := "DELETE"; init_body := None |})].
Proof.
  pose proof (trigger_run fetch route "DELETE" input options) as Hrun.
  simpl in Hrun. rewrite Hrun. clear Hrun.
  rewrite mutation_request_DELETE. unfold trace.
  destruct (outcome (mutationFn fetch route "DELETE" input)) as [result|e];
    simpl snd.
  - destruct (js_truthy (opt_optimisticData options)),
      (opt_revalidate options); reflexivity.
  - destruct (js_truthy (opt_optimisticData options)),
      (opt_rollbackOnError options); reflexivity.
Qed.

Example delete_with_extra_fields :
  trigger always_ok "/api/users/[id]" "DELETE"
    (JObject [("id", JString "42"); ("reason", JString "spam")]) None =
  (Normal (JObject [("success", JBool true)]),
   [EvFetch "/api/users/42" {| init_method := "DELETE"; init_body := None |};
    EvMutatePrefix "/api/users/42"]).
Proof. reflexivity. Qed.

(** C10. Falsy optimistic data ([0], the empty string, [false], [null])
    counts as none: [trigger] runs exactly as it does without the option,
    it writes nothing to the cache before the request, and when the request
    rejects it asks for no refetch either, whatever [rollbackOnError] is, so
    that the cache is left as it was and the error is thrown. *)
Theorem C10_falsy_optimisticData (fetch : Network) (route method : string)
    (input : JsValue) (o : TriggerOptions) :
  js_truthy (optimisticData o) = false ->
  let run := trigger fetch route method input (Some o) in
  run = trigger fetch route method input (Some (without_optimisticData o)) /\
  head (trace run) =
    Some (EvFetch (base_route route input)
            (snd (mutation_request route method input))) /\
  (forall ev, In ev (trace run) ->
     match ev with
     | EvMutateData _ _ | EvMutateKey _ => False
     | EvFetch _ _ | EvMutatePrefix _ => True
     end) /\
  (forall e, outcome (mutationFn fetch route method input) = Throw e ->
     outcome run = Throw e /\
     forall cache : gmap string CacheEntry, cache_run (trace run) cache = cache).
Proof.
  intros Hd run. subst run.
  rewrite (trigger_run fetch route method input (Some o)).
  rewrite (trigger_run fetch route method input (Some (without_optimisticData o))).
  simpl. rewrite Hd, andb_false_r. simpl.
  destruct (outcome (mutationFn fetch route method input)) as [result|e].
  - split; [reflexivity|]. split; [reflexivity|]. split; [|discriminate].
    intros ev. unfold trace. simpl.
    destruct (match revalidate o with Some false => false | _ => true end);
      simpl; intros H; repeat destruct H as [<-|H]; try exact I; destruct H.
  - split; [reflexivity|]. split; [reflexivity|]. split.
    + intros ev. unfold trace. simpl. intros [<-|[]]. exact I.
    + intros e' [= <-]. split; reflexivity.
Qed.

Lemma C10_falsy_optimisticData_witness :
  let run := trigger always_500 "/api/users/[id]" "PUT" update_user_42
               (Some optimistic_zero) in
  run = trigger always_500 "/api/users/[id]" "PUT" update_user_42
          (Some (without_optimisticData optimistic_zero)) /\
  head (trace run) =
    Some (EvFetch (base_route "/api/users/[id]" update_user_42)
            (snd (mutation_request "/api/users/[id]" "PUT" update_user_42))) /\
  (forall ev, In ev (trace run) ->
     match ev with
     | EvMutateData _ _ | EvMutateKey _ => False
     | EvFetch _ _ | EvMutatePrefix _ => True
     end) /\
  (forall e, outcome (mutationFn always_500 "/api/users/[id]" "PUT" update_user_42)
             = Throw e ->
     outcome run = Throw e /\
     forall cache : gmap string CacheEntry, cache_run (trace run) cache = cache).
Proof.
  apply (C10_falsy_optimisticData always_500 "/api/users/[id]" "PUT"
           update_user_42 optimistic_zero).
  reflexivity.
Defined.

Example falsy_values :
  map js_truthy [JNumber 0; JString EmptyString; JBool false; JNull; JUndefined] =
  [false; false; false; false; false].
Proof. reflexivity. Qed.

Example rejected_with_zero_leaves_no_cache_call :
  trigger always_500 "/api/users/[id]" "PUT" update_user_42 (Some optimistic_zero) =
  (Throw (ThrownError "boom"),
   [EvFetch "/api/users/42"
      {| init_method := "PUT";
         init_body := Some (JObject [("name", JString "New Name")]) |}]).
Proof. reflexivity. Qed.

(** ** Route substitution *)

Section RouteSubstitution.

Lemma append_cons (x : ascii) (a b : string) :
  String x a +:+ b = String x (a +:+ b).
Proof. reflexivity. Qed.

Lemma append_nil_l (b : string) : EmptyString +:+ b = b.
Proof. reflexivity. Qed.

Lemma append_assoc (a b c : string) : (a +:+ b) +:+ c = a +:+ (b +:+ c).
Proof.
  induction a as [|x a IH]; [reflexivity|].
  now rewrite !append_cons, IH.
Qed.

Lemma placeholder_cons (k : string) :
  placeholder k = String "[" (k +:+ "]").
Proof. reflexivity. Qed.

Lemma strip_prefix_cons (a b : ascii) (p s : string) :
  strip_prefix (String a p) (String b s) =
  if Ascii.eqb a b then strip_prefix p s else None.
Proof. reflexivity. Qed.

Lemma split_at_first_cons (pat : string) (c : ascii) (s : string) :
  split_at_first pat (String c s) =
  match strip_prefix pat (String c s) with
  | Some rest => Some (EmptyString, rest)
  | None =>
      match split_at_first pat s with
      | Some (pre, post) => Some (String c pre, post)
      | None => None
      end
  end.
Proof. reflexivity. Qed.

Lemma has_char_append (c : ascii) (a b : string) :
  has_char c (a +:+ b) = has_char c a || has_char c b.
Proof.
  induction a as [|x a IH]; [reflexivity|].
  rewrite append_cons. simpl. now rewrite IH, orb_assoc.
Qed.

Lemma render_app (s1 s2 : list Segment) :
  render (s1 ++ s2) = render s1 +:+ render s2.
Proof.
  induction s1 as [|s s1 IH]; simpl; [reflexivity|].
  now rewrite IH, append_assoc.
Qed.

(** A replacement text without a dollar sign stands for itself. *)
Lemma get_substitution_plain (matched pre post rep : string) :
  has_char "$" rep = false -> get_substitution matched pre post rep = rep.
Proof.
  induction rep as [|c rep IH]; simpl; [reflexivity|].
  intros H. apply orb_false_iff in H as [Hc Hrep].
  destruct (Ascii.eqb_spec c "$") as [->|Hne]; [discriminate|].
  rewrite (IH Hrep).
  destruct c as [[] [] [] [] [] [] [] []]; try reflexivity; congruence.
Qed.

(** No occurrence of a placeholder starts inside text that has no opening
    bracket. *)
Lemma split_skip_text (k text rest : string) :
  has_char "[" text = false ->
  split_at_first (placeholder k) (text +:+ rest) =
  match split_at_first (placeholder k) rest with
  | Some (pre, post) => Some (text +:+ pre, post)
  | None => None
  end.
Proof.
  induction text as [|c text IH]; intros H.
  - rewrite append_nil_l.
    destruct (split_at_first (placeholder k) rest) as [[pre post]|];
      reflexivity.
  - simpl in H. apply orb_false_iff in H as [Hc Htext].
    rewrite append_cons, split_at_first_cons.
    rewrite (placeholder_cons k) at 1.
    rewrite strip_prefix_cons, Ascii.eqb_sym, Hc, (IH Htext).
    destruct (split_at_first (placeholder k) rest) as [[pre post]|];
      reflexivity.
Qed.

(** Two names without a closing bracket, each followed by one, agree only
    when the names are equal. *)
Lemma strip_prefix_other_name (k n rest : string) :
  has_char "]" k = false -> has_char "]" n = false -> k <> n ->
  strip_prefix (k +:+ "]") (n +:+ String "]" rest) = None.
Proof.
  revert n. induction k as [|c k IH]; intros n Hk Hn Hne.
  - destruct n as [|d n]; [congruence|].
    simpl in Hn. apply orb_false_iff in Hn as [Hd _].
    rewrite append_nil_l, append_cons, strip_prefix_cons.
    now rewrite Ascii.eqb_sym, Hd.
  - simpl in Hk. apply orb_false_iff in Hk as [Hc Hk].
    rewrite append_cons.
    destruct n as [|d n].
    + rewrite append_nil_l, strip_prefix_cons. now rewrite Hc.
    + simpl in Hn. apply orb_false_iff in Hn as [Hd Hn].
      rewrite append_cons, strip_prefix_cons.
      destruct (Ascii.eqb_spec c d) as [->|_]; [|reflexivity].
      apply IH; [assumption | assumption | congruence].
Qed.

Lemma split_skip_param (k n rest : string) :
  has_char "]" k = false ->
  has_char "[" n = false -> has_char "]" n = false -> k <> n ->
  split_at_first (placeholder k) (placeholder n +:+ rest) =
  match split_at_first (placeholder k) rest with
  | Some (pre, post) => Some (placeholder n +:+ pre, post)
  | None => None
  end.
Proof.
  intros Hk Hn1 Hn2 Hne.
  assert (Hn : forall r, placeholder n +:+ r = String "[" ((n +:+ "]") +:+ r))
    by reflexivity.
  rewrite Hn, split_at_first_cons. rewrite (placeholder_cons k) at 1.
  rewrite strip_prefix_cons, Ascii.eqb_refl.
  rewrite append_assoc, append_cons, append_nil_l.
  rewrite (strip_prefix_other_name k n rest Hk Hn2 Hne).
  change (String "]" rest) with ("]" +:+ rest).
  rewrite <- append_assoc, (split_skip_text k (n +:+ "]") rest).
  - destruct (split_at_first (placeholder k) rest) as [[pre post]|];
      [|reflexivity].
    now rewrite Hn.
  - rewrite has_char_append, Hn1. reflexivity.
Qed.

Lemma split_at_param (k rest : string) :
  split_at_first (placeholder k) (placeholder k +:+ rest) =
    Some (EmptyString, rest).
Proof.
  assert (H : strip_prefix (placeholder k) (placeholder k +:+ rest) = Some rest)
    by now apply strip_prefix_spec.
  unfold split_at_first.
  destruct (placeholder k +:+ rest); now rewrite H.
Qed.

End RouteSubstitution.

Section SegmentSearch.

Variable k : string.
Hypothesis k_plain : has_char "]" k = false.

Lemma search_empty : split_at_first (placeholder k) EmptyString = None.
Proof. reflexivity. Qed.

Lemma search_absent (segs : list Segment) :
  forallb segment_ok segs = true ->
  ~ In (Param k) segs ->
  split_at_first (placeholder k) (render segs) = None.
Proof.
  induction segs as [|s segs IH]; intros Hok Hnotin; [reflexivity|].
  simpl in Hok. apply andb_true_iff in Hok as [Hs Hok].
  assert (Hrest : split_at_first (placeholder k) (render segs) = None).
  { apply IH; [assumption|]. intros H. apply Hnotin. now right. }
  destruct s as [text|name]; simpl render.
  - rewrite split_skip_text, Hrest; [reflexivity|].
    simpl in Hs. now apply negb_true_iff in Hs.
  - simpl in Hs. apply andb_true_iff in Hs as [H1 H2].
    apply negb_true_iff in H1, H2.
    rewrite split_skip_param, Hrest; try assumption; [reflexivity|].
    intros ->. apply Hnotin. now left.
Qed.

Lemma search_first (s1 s2 : list Segment) :
  forallb segment_ok s1 = true ->
  ~ In (Param k) s1 ->
  split_at_first (placeholder k) (render (s1 ++ Param k :: s2)) =
    Some (render s1, render s2).
Proof.
  induction s1 as [|s s1 IH]; intros Hok Hnotin.
  - simpl. apply split_at_param.
  - simpl in Hok. apply andb_true_iff in Hok as [Hs Hok].
    assert (Hrest : split_at_first (placeholder k) (render (s1 ++ Param k :: s2))
                    = Some (render s1, render s2)).
    { apply IH; [assumption|]. intros H. apply Hnotin. now right. }
    destruct s as [text|name]; simpl app; simpl render.
    + rewrite split_skip_text, Hrest; [reflexivity|].
      simpl in Hs. now apply negb_true_iff in Hs.
    + simpl in Hs. apply andb_true_iff in Hs as [H1 H2].
      apply negb_true_iff in H1, H2.
      rewrite split_skip_param, Hrest; try assumption; [reflexivity|].
      intros ->. apply Hnotin. now left.
Qed.

End SegmentSearch.

Section Substitution.

Lemma In_param_names (n : string) (segs : list Segment) :
  In (Param n) segs <-> In n (param_names segs).
Proof.
  induction segs as [|s segs IH]; [reflexivity|].
  destruct s as [text|name]; simpl.
  - rewrite <- IH. split; [intros [H|H]; [discriminate | assumption] | auto].
  - rewrite <- IH. split; intros [H|H]; auto; left; congruence.
Qed.

Lemma distinct_NoDup (l : list string) :
  distinct l = true -> List.NoDup l.
Proof.
  induction l as [|x l IH]; simpl; intros H; [constructor|].
  apply andb_true_iff in H as [Hx Hl]. constructor; [|auto].
  intros Hin. apply negb_true_iff in Hx.
  assert (existsb (String.eqb x) l = true); [|congruence].
  apply existsb_exists. exists x. split; [assumption | apply String.eqb_refl].
Qed.

Lemma distinct_filter (f : string -> bool) (l : list string) :
  distinct l = true -> distinct (List.filter f l) = true.
Proof.
  induction l as [|x l IH]; simpl; intros H; [reflexivity|].
  apply andb_true_iff in H as [Hx Hl].
  destruct (f x); simpl; [|auto].
  rewrite (IH Hl), andb_true_r.
  apply negb_true_iff in Hx. apply negb_true_iff.
  destruct (existsb (String.eqb x) (List.filter f l)) eqn:E; [|reflexivity].
  apply existsb_exists in E as (y & Hy & Hxy).
  apply filter_In in Hy as [Hy _].
  assert (existsb (String.eqb x) l = true); [|congruence].
  apply existsb_exists. eauto.
Qed.

(** The first placeholder of a name, when there is one. *)
Lemma first_param (n : string) (segs : list Segment) :
  In (Param n) segs ->
  exists s1 s2, segs = s1 ++ Param n :: s2 /\ ~ In (Param n) s1.
Proof.
  induction segs as [|s segs IH]; intros Hin; [destruct Hin|].
  destruct s as [text|name].
  - destruct Hin as [H|H]; [discriminate|].
    destruct (IH H) as (s1 & s2 & -> & Hs1).
    exists (Lit text :: s1), s2. split; [reflexivity|].
    intros [H'|H']; [discriminate | auto].
  - destruct (String.eqb_spec name n) as [->|Hne].
    + exists [], segs. split; [reflexivity | intros []].
    + destruct Hin as [H|H]; [congruence|].
      destruct (IH H) as (s1 & s2 & -> & Hs1).
      exists (Param name :: s1), s2. split; [reflexivity|].
      intros [H'|H']; [congruence | auto].
Qed.

Lemma fill_absent (key value : string) (segs : list Segment) :
  ~ In (Param key) segs -> map (fill key value) segs = segs.
Proof.
  induction segs as [|s segs IH]; intros Hnotin; [reflexivity|].
  simpl. rewrite IH by (intros H; apply Hnotin; now right). f_equal.
  destruct s as [text|name]; [reflexivity|]. simpl.
  destruct (String.eqb_spec name key) as [->|_]; [|reflexivity].
  exfalso. apply Hnotin. now left.
Qed.

Lemma param_names_fill (key value : string) (segs : list Segment) :
  param_names (map (fill key value) segs) =
  List.filter (fun n => negb (String.eqb n key)) (param_names segs).
Proof.
  induction segs as [|s segs IH]; [reflexivity|].
  destruct s as [text|name]; simpl; [exact IH|].
  destruct (String.eqb name key) eqn:E; simpl; [exact IH|].
  unfold param_names in *. simpl. now rewrite IH.
Qed.

Lemma well_formed_fill (key value : string) (segs : list Segment) :
  has_char "[" value = false ->
  well_formed segs = true ->
  well_formed (map (fill key value) segs) = true.
Proof.
  unfold well_formed. intros Hv H.
  apply andb_true_iff in H as [Hok Hd]. apply andb_true_iff. split.
  - rewrite forallb_forall in *. intros s Hs.
    apply in_map_iff in Hs as (s0 & <- & Hs0).
    specialize (Hok s0 Hs0). destruct s0 as [text|name]; [exact Hok|].
    simpl. destruct (String.eqb name key); [|exact Hok].
    simpl. now rewrite Hv.
  - rewrite param_names_fill. now apply distinct_filter.
Qed.

(** One call of [replace] fills one parameter. *)
Lemma js_replace_fill (key value : string) (segs : list Segment) :
  has_char "]" key = false ->
  has_char "$" value = false ->
  well_formed segs = true ->
  js_replace (placeholder key) value (render segs) =
  render (map (fill key value) segs).
Proof.
  intros Hk Hv Hwf. unfold well_formed in Hwf.
  apply andb_true_iff in Hwf as [Hok Hd]. apply distinct_NoDup in Hd.
  unfold js_replace.
  destruct (in_dec (fun a b : string => string_dec a b) key (param_names segs))
    as [Hin|Hnotin].
  - apply In_param_names, first_param in Hin as (s1 & s2 & -> & Hs1).
    rewrite forallb_app in Hok. apply andb_true_iff in Hok as [Hok1 _].
    rewrite (search_first key Hk s1 s2 Hok1 Hs1).
    rewrite (get_substitution_plain _ _ _ _ Hv).
    assert (Hs2 : ~ In (Param key) s2).
    { unfold param_names in Hd. rewrite omap_app in Hd. simpl in Hd.
      apply List.NoDup_remove_2 in Hd. intros H. apply Hd.
      apply in_or_app. right. now apply In_param_names. }
    rewrite map_app. simpl. rewrite String.eqb_refl.
    rewrite !fill_absent by assumption.
    rewrite render_app. reflexivity.
  - assert (Hno : ~ In (Param key) segs) by now rewrite In_param_names.
    rewrite (search_absent key Hk segs Hok Hno).
    now rewrite fill_absent.
Qed.

Lemma substitute_fill (key value : string) (params : list (string * string))
    (s : Segment) :
  substitute params (fill key value s) = substitute ((key, value) :: params) s.
Proof.
  destruct s as [text|name]; [reflexivity|]. simpl.
  destruct (String.eqb name key); reflexivity.
Qed.

Lemma buildRoute_substitute (params : list (string * string)) :
  forall segs,
    well_formed segs = true ->
    plain_params params = true ->
    buildRoute (render segs) params = render (map (substitute params) segs).
Proof.
  induction params as [|[key value] params IH]; intros segs Hwf Hp.
  - simpl. f_equal. clear Hwf.
    induction segs as [|[|] segs IHs]; simpl; congruence.
  - simpl in Hp. apply andb_true_iff in Hp as [He Hp].
    unfold plain_entry in He. simpl in He.
    apply andb_true_iff in He as [He Hdollar].
    apply andb_true_iff in He as [Hkey Hvalue].
    apply negb_true_iff in Hkey, Hvalue, Hdollar.
    unfold buildRoute in *. simpl fold_left.
    rewrite (js_replace_fill key value segs Hkey Hdollar Hwf).
    rewrite IH by (try apply well_formed_fill; assumption).
    rewrite map_map. f_equal. apply map_ext. intros s.
    apply substitute_fill.
Qed.

Lemma first_value_Some (k : string) (params : list (string * string)) :
  In k (map fst params) -> exists v, first_value k params = Some v /\ In (k, v) params.
Proof.
  induction params as [|[k' v'] params IH]; simpl; intros Hin; [destruct Hin|].
  destruct (String.eqb_spec k k') as [->|Hne]; [eauto|].
  destruct Hin as [H|H]; [congruence|].
  destruct (IH H) as (v & Hv & Hin). eauto.
Qed.

Lemma first_value_In (k v : string) (params : list (string * string)) :
  first_value k params = Some v -> In (k, v) params.
Proof.
  induction params as [|[k' v'] params IH]; simpl; [discriminate|].
  destruct (String.eqb_spec k k') as [->|Hne]; [intros [= ->]; now left | auto].
Qed.

Lemma substitute_ok (params : list (string * string)) (segs : list Segment) :
  forallb segment_ok segs = true ->
  plain_params params = true ->
  forallb segment_ok (map (substitute params) segs) = true.
Proof.
  intros Hok Hp. unfold plain_params in Hp. rewrite forallb_forall in *.
  intros s Hs. apply in_map_iff in Hs as (s0 & <- & Hs0).
  specialize (Hok s0 Hs0). destruct s0 as [text|name]; [exact Hok|].
  simpl. destruct (first_value name params) as [v|] eqn:E; [|exact Hok].
  apply first_value_In, Hp in E. unfold plain_entry in E. simpl in *.
  apply andb_true_iff in E as [E _]. apply andb_true_iff in E as [_ E].
  exact E.
Qed.

End Substitution.

(** Three routes in which a placeholder of a key of the mapping is still
    there after [buildRoute]: the value is the placeholder text itself, the
    placeholder occurs twice, and the value is the replacement pattern for
    the matched text. *)
Lemma C8_placeholder_remains :
  (js_includes (placeholder "id") "/api/users/[id]" = true /\
   buildRoute "/api/users/[id]" [("id", "[id]")] = "/api/users/[id]" /\
   js_includes (placeholder "id")
     (buildRoute "/api/users/[id]" [("id", "[id]")]) = true) /\
  (buildRoute "/api/[id]/copy/[id]" [("id", "42")] = "/api/42/copy/[id]" /\
   js_includes (placeholder "id")
     (buildRoute "/api/[id]/copy/[id]" [("id", "42")]) = true) /\
  (buildRoute "/api/users/[id]" [("id", "$&")] = "/api/users/[id]" /\
   js_includes (placeholder "id")
     (buildRoute "/api/users/[id]" [("id", "$&")]) = true).
Proof. repeat split. Qed.

(** C8, amended. On a template made of literal text without an opening
    bracket and of placeholders with distinct bracket-free names, and for a
    mapping whose keys hold no closing bracket and whose values hold no
    opening bracket and no dollar sign, [buildRoute] is substitution: every
    placeholder whose name is a key becomes that key's value and the rest is
    unchanged, so that no placeholder of a key remains; and
    [buildRoute("/api/users/[id]", {id: "42"})] is ["/api/users/42"]. *)
Theorem C8_buildRoute_substitutes (segs : list Segment)
    (params : list (string * string)) :
  well_formed segs = true ->
  plain_params params = true ->
  buildRoute (render segs) params = render (map (substitute params) segs) /\
  (forall k, In k (map fst params) ->
     js_includes (placeholder k) (buildRoute (render segs) params) = false) /\
  buildRoute "/api/users/[id]" [("id", "42")] = "/api/users/42".
Proof.
  intros Hwf Hp. split; [now apply buildRoute_substitute|].
  split; [|reflexivity].
  intros k Hk. rewrite (buildRoute_substitute params segs Hwf Hp).
  destruct (first_value_Some k params Hk) as (v & Hv & Hin).
  assert (Hplain : has_char "]" k = false).
  { unfold plain_params in Hp. rewrite forallb_forall in Hp.
    specialize (Hp _ Hin). unfold plain_entry in Hp. simpl in Hp.
    apply andb_true_iff in Hp as [Hp _]. apply andb_true_iff in Hp as [Hp _].
    now apply negb_true_iff in Hp. }
  unfold well_formed in Hwf. apply andb_true_iff in Hwf as [Hok _].
  unfold js_includes. rewrite (search_absent k Hplain); [reflexivity | |].
  - now apply substitute_ok.
  - intros H. apply in_map_iff in H as (s0 & Hs0 & _).
    destruct s0 as [text|name]; simpl in Hs0; [discriminate|].
    destruct (first_value name params) eqn:E; [discriminate|].
    injection Hs0 as ->. congruence.
Qed.

Lemma C8_buildRoute_substitutes_witness :
  buildRoute (render [Lit "/api/posts/"; Param "slug"; Lit "/by/"; Param "id"])
    [("id", "42"); ("slug", "my-post")] =
    render (map (substitute [("id", "42"); ("slug", "my-post")])
              [Lit "/api/posts/"; Param "slug"; Lit "/by/"; Param "id"]) /\
  (forall k, In k (map fst [("id", "42"); ("slug", "my-post")]) ->
     js_includes (placeholder k)
       (buildRoute
          (render [Lit "/api/posts/"; Param "slug"; Lit "/by/"; Param "id"])
          [("id", "42"); ("slug", "my-post")]) = false) /\
  buildRoute "/api/users/[id]" [("id", "42")] = "/api/users/42".
Proof.
  apply (C8_buildRoute_substitutes
           [Lit "/api/posts/"; Param "slug"; Lit "/by/"; Param "id"]
           [("id", "42"); ("slug", "my-post")]).
  - reflexivity.
  - reflexivity.
Defined.

Example api_routes_are_well_formed :
  render [Lit "/api/users/"; Param "id"] = "/api/users/[id]" /\
  render [Lit "/api/posts/"; Param "slug"] = "/api/posts/[slug]" /\
  render [Lit "/api/users"] = "/api/users" /\
  well_formed [Lit "/api/users/"; Param "id"] = true /\
  well_formed [Lit "/api/posts/"; Param "slug"] = true /\
  well_formed [Lit "/api/users"] = true.
Proof. repeat split. Qed.

Example buildRoute_two_parameters :
  buildRoute "/api/posts/[slug]/by/[id]" [("id", "42"); ("slug", "my-post")] =
  "/api/posts/my-post/by/42".
Proof. reflexivity. Qed.

Example buildRoute_missing_parameter :
  buildRoute "/api/posts/[slug]" [("id", "42")] = "/api/posts/[slug]".
Proof. reflexivity. Qed.

(** * Further properties *)

(** ** The request adapter, case by case *)


Example key_registered_with_undefined :
  match createApiHandler
          (<["GET" := None]> {["POST" := Some (RegularHandler boom)]}) !! "GET"
  with
  | Some exported => Some (exported malformed_post None)
  | None => None
  end =
  Some (Normal {| status := 405;
                  body := JObject [("error", JString "Method GET not allowed")] |},
        []).
Proof. vm_compute. reflexivity. Qed.

Ltac settle_200 :=
  split; [split; [intros H200 | intros (v0 & Hv0 & Hne0)]
         | split; [intros H200 | intros v0 Hv0 Hne0]];
  try discriminate;
  try match goal with H : Some _ = Some _ |- _ => injection H as <- end;
  try congruence;
  try (eexists; split; [reflexivity | discriminate]);
  try (split; reflexivity).

(** X2. The adapter answers 200 exactly when the handler's function was
    reached and returned a value other than [undefined]; the value handed
    to [Response.json] is then that value, and what the client reads back
    is its JSON form: properties holding [undefined] are left out and
    [undefined] elements of arrays read [null]. *)
Theorem X2_status_200_iff_returned (handlers : gmap string Handler)
    (method : string) (req : NextRequest) (context : option JsValue)
    (handlerDef : Handler) (raw : Obj.t) (r : Response) :
  handlers !! method = Some handlerDef ->
  outcome (rawInput method req context) = Normal raw ->
  outcome (createMethod handlers method req context) = Normal r ->
    (status r = 200 <->
     exists v, handler_result handlerDef (JObject raw) req (context_params context)
                 = Some (Normal v) /\ v <> JUndefined) /\
    (status r = 200 ->
     handler_result handlerDef (JObject raw) req (context_params context)
       = Some (Normal (body r))) /\
    (forall v,
        handler_result handlerDef (JObject raw) req (context_params context)
          = Some (Normal v) ->
        v <> JUndefined -> body r = v /\ sent_body r = to_json v).
Proof.
  intros Hh Hraw. revert r.
  destruct (rawInput_lookup method req context) as (raw' & Hraw' & _).
  rewrite Hraw' in Hraw. injection Hraw as <-.
  destruct handlerDef as [f|schema handler]; simpl handler_result; intros r.
  - rewrite (createMethod_regular _ _ _ _ _ _ Hh Hraw'). simpl.
    destruct (f (JObject raw') req (context_params context)) as [v|e];
      [destruct v|]; intros [= <-]; simpl; settle_200.
  - rewrite (createMethod_schema _ _ _ _ _ _ _ Hh Hraw'). simpl.
    destruct (safeParse schema (JObject raw')) as [data|issues].
    + destruct (handler data req (context_params context)) as [v|e];
        [destruct v|]; intros [= <-]; simpl; settle_200.
    + intros [= <-]. simpl. settle_200.
Qed.

Lemma X2_status_200_iff_returned_witness :
  let r := {| status := 200;
              body := JObject [("tags", JArray [JString "a"; JUndefined]);
                               ("next", JUndefined)] |} in
  outcome (createMethod {["POST" := RegularHandler sparse_result]} "POST"
             malformed_post None) = Normal r /\
  body r = JObject [("tags", JArray [JString "a"; JUndefined]);
                    ("next", JUndefined)] /\
  sent_body r = JObject [("tags", JArray [JString "a"; JNull])].
Proof.
  split; [reflexivity|].
  apply (X2_status_200_iff_returned {["POST" := RegularHandler sparse_result]}
           "POST" malformed_post None (RegularHandler sparse_result) []
           {| status := 200;
              body := JObject [("tags", JArray [JString "a"; JUndefined]);
                               ("next", JUndefined)] |}).
  - reflexivity.
  - reflexivity.
  - reflexivity.
  - reflexivity.
  - discriminate.
Defined.

Example sent_body_of_a_sparse_result :
  sent_body {| status := 200;
               body := JObject [("tags", JArray [JString "a"; JUndefined]);
                                ("next", JUndefined)] |} =
  JObject [("tags", JArray [JString "a"; JNull])].
Proof. reflexivity. Qed.

(** The shapes a run of [createMethod] can take. *)
Lemma createMethod_shapes (handlers : gmap string Handler) (method : string)
    (req : NextRequest) (context : option JsValue) :
  let params := context_params context in
  exists r tr,
    createMethod handlers method req context = (Normal r, tr) /\
    ((status r = 405 /\ tr = [] /\ handlers !! method = None /\
      body r = JObject [("error", JString ("Method " +:+ method +:+ " not allowed"))]) \/
     (exists raw issues schema handler,
         handlers !! method = Some (SchemaHandler schema handler) /\
         status r = 400 /\ tr = [EvSafeParse raw] /\
         safeParse schema raw = ParseFailure issues /\
         body r = JObject [("error", JString "Validation failed");
                           ("details", JArray (map issue_json issues))]) \/
     (exists pre input handlerDef,
         handlers !! method = Some handlerDef /\
         status r = 200 /\ tr = pre ++ [EvHandlerCall input params] /\
         (pre = [] \/ exists raw, pre = [EvSafeParse raw]) /\
         (forall f, handlerDef = RegularHandler f -> pre = [])) \/
     (exists pre input e handlerDef,
         handlers !! method = Some handlerDef /\
         status r = 500 /\
         body r = JObject [("error", JString (thrown_message e))] /\
         tr = pre ++ [EvHandlerCall input params; EvConsoleError e] /\
         (pre = [] \/ exists raw, pre = [EvSafeParse raw]) /\
         (forall f, handlerDef = RegularHandler f -> pre = []))).
Proof.
  intros params. subst params.
  destruct (handlers !! method) as [handlerDef|] eqn:Hh.
  - destruct (rawInput_lookup method req context) as (raw & Hraw & _).
    destruct handlerDef as [f|schema handler].
    + rewrite (createMethod_regular _ _ _ _ _ _ Hh Hraw). simpl.
      destruct (f (JObject raw) req (context_params context)) as [[]|e];
        do 2 eexists; (split; [reflexivity|]);
        first
          [ right; right; left; exists [], (JObject raw), (RegularHandler f);
            simpl; repeat split; auto; fail
          | right; right; right;
            eexists [], (JObject raw), _, (RegularHandler f);
            simpl; repeat split; auto ].
    + rewrite (createMethod_schema _ _ _ _ _ _ _ Hh Hraw). simpl.
      destruct (safeParse schema (JObject raw)) as [data|issues] eqn:Hp.
      * destruct (handler data req (context_params context)) as [[]|e];
          do 2 eexists; (split; [reflexivity|]);
          first
            [ right; right; left;
              exists [EvSafeParse (JObject raw)], data, (SchemaHandler schema handler);
              simpl; repeat split; eauto; discriminate
            | right; right; right;
              eexists [EvSafeParse (JObject raw)], data, _,
                (SchemaHandler schema handler);
              simpl; repeat split; eauto; discriminate ].
      * do 2 eexists. split; [reflexivity|]. right; left.
        exists (JObject raw), issues, schema, handler. simpl. auto.
  - unfold createMethod. rewrite Hh. do 2 eexists. split; [reflexivity|].
    left. simpl. auto.
Qed.

Lemma handler_calls_app (a b : list ServerEvent) :
  handler_calls (a ++ b) = handler_calls a ++ handler_calls b.
Proof. apply omap_app. Qed.

Lemma safe_parses_app (a b : list ServerEvent) :
  safe_parses (a ++ b) = safe_parses a ++ safe_parses b.
Proof. apply omap_app. Qed.

Lemma console_errors_app (a b : list ServerEvent) :
  console_errors (a ++ b) = console_errors a ++ console_errors b.
Proof. apply omap_app. Qed.

(** X3. One request is one attempt: the adapter parses with the schema at
    most once, calls the handler's function at most once and logs at most
    one error; the function is given [context?.params] unchanged; a plain
    handler is never parsed for; and an unregistered method makes no call
    at all. *)
Theorem X3_single_attempt (handlers : gmap string Handler) (method : string)
    (req : NextRequest) (context : option JsValue) :
  let tr := trace (createMethod handlers method req context) in
  (length (safe_parses tr) <= 1 /\
   length (handler_calls tr) <= 1 /\
   length (console_errors tr) <= 1)%nat /\
  (forall input params,
      In (input, params) (handler_calls tr) -> params = context_params context) /\
  (forall f, handlers !! method = Some (RegularHandler f) -> safe_parses tr = []) /\
  (handlers !! method = None -> tr = []).
Proof.
  intros tr. subst tr.
  destruct (createMethod_shapes handlers method req context)
    as (r & tr & Hrun & Hshape).
  rewrite Hrun. unfold trace. simpl snd.
  destruct Hshape as [(_ & -> & Hnone & _)
                     |[(raw & issues & schema & handler & Hh & _ & -> & _)
                     |[(pre & input & handlerDef & Hh & _ & -> & Hpre & Hplain)
                      |(pre & input & e & handlerDef & Hh & _ & _ & -> & Hpre & Hplain)]]].
  - simpl. repeat split; try lia; try tauto; try reflexivity.
  - simpl. repeat split; try lia; try tauto; try reflexivity; congruence.
  - rewrite safe_parses_app, handler_calls_app, console_errors_app.
    split; [|split; [|split]].
    + destruct Hpre as [->|[raw ->]]; simpl; lia.
    + destruct Hpre as [->|[raw ->]]; simpl; intros i p [[= _ <-]|[]]; reflexivity.
    + intros f Hf. rewrite Hh in Hf. injection Hf as ->.
      now rewrite (Hplain f eq_refl).
    + congruence.
  - rewrite safe_parses_app, handler_calls_app, console_errors_app.
    split; [|split; [|split]].
    + destruct Hpre as [->|[raw ->]]; simpl; lia.
    + destruct Hpre as [->|[raw ->]]; simpl; intros i p [[= _ <-]|[]]; reflexivity.
    + intros f Hf. rewrite Hh in Hf. injection Hf as ->.
      now rewrite (Hplain f eq_refl).
    + congruence.
Qed.

(** X4. The thrown value is logged exactly when the answer is 500: a 500
    answer comes with one logged value, whose message (or the fixed text)
    is the body's [error], and no other answer logs anything. *)
Theorem X4_logged_iff_500 (handlers : gmap string Handler) (method : string)
    (req : NextRequest) (context : option JsValue) :
  let run := createMethod handlers method req context in
  exists r,
    outcome run = Normal r /\
    (status r = 500 ->
     exists e, console_errors (trace run) = [e] /\
               body r = JObject [("error", JString (thrown_message e))]) /\
    (status r <> 500 -> console_errors (trace run) = []).
Proof.
  intros run. subst run.
  destruct (createMethod_shapes handlers method req context)
    as (r & tr & Hrun & Hshape).
  rewrite Hrun. exists r. split; [reflexivity|]. unfold trace. simpl snd.
  destruct Hshape as [(Hs & -> & _)
                     |[(raw & issues & schema & handler & _ & Hs & -> & _)
                     |[(pre & input & handlerDef & _ & Hs & -> & Hpre & _)
                      |(pre & input & e & handlerDef & _ & Hs & Hb & -> & Hpre & _)]]].
  - split; [intros H; congruence | reflexivity].
  - split; [intros H; congruence | reflexivity].
  - split; [intros H; congruence|]. intros _. rewrite console_errors_app.
    destruct Hpre as [->|[raw ->]]; reflexivity.
  - split; [|congruence]. intros _. exists e. split; [|exact Hb].
    rewrite console_errors_app. destruct Hpre as [->|[raw ->]]; reflexivity.
Qed.

(** X5. GET and DELETE never read the body, and every other method never
    reads the query string: the merged input is the same whatever the part
    that is not read holds. *)
Theorem X5_unread_part_is_ignored (method : string) (req : NextRequest)
    (context : option JsValue) (other_query : list (string * string))
    (other_body : Completion JsValue) :
  rawInput method req context =
    if is_GET_or_DELETE method
    then rawInput method
           {| searchParams := searchParams req; json := other_body |} context
    else rawInput method
           {| searchParams := other_query; json := json req |} context.
Proof.
  unfold rawInput, query_entries. destruct (is_GET_or_DELETE method); reflexivity.
Qed.

(** X6. The earlier adapter, whose handlers are all plain functions,
    answers every request as the current adapter does when each of those
    functions is registered as a plain handler; so it never parses with a
    schema and never answers 400. *)
Theorem X6_earlier_adapter_agrees (handlers : gmap string HandlerFn)
    (method : string) (req : NextRequest) (context : option JsValue) :
  let run := PlainAdapter.createMethod handlers method req context in
  run = createMethod (RegularHandler <$> handlers) method req context /\
  safe_parses (trace run) = [] /\
  exists r, outcome run = Normal r /\
            (status r = 200 \/ status r = 405 \/ status r = 500).
Proof.
  intros run. subst run. rewrite plain_adapter_createMethod.
  split; [reflexivity|].
  destruct (createMethod_shapes (RegularHandler <$> handlers) method req context)
    as (r & tr & Hrun & Hshape).
  rewrite Hrun. unfold trace, outcome. simpl.
  assert (Hplain : forall handlerDef,
            (RegularHandler <$> handlers) !! method = Some handlerDef ->
            exists f, handlerDef = RegularHandler f).
  { intros handlerDef. rewrite lookup_fmap.
    destruct (handlers !! method) as [f|]; [|discriminate].
    intros [= <-]. eauto. }
  destruct Hshape as [(Hs & -> & _)
                     |[(raw & issues & schema & handler & Hh & _)
                     |[(pre & input & handlerDef & Hh & Hs & -> & _ & Hpre)
                      |(pre & input & e & handlerDef & Hh & Hs & _ & -> & _ & Hpre)]]].
  - split; [reflexivity|]. eauto.
  - destruct (Hplain _ Hh) as [f Hf]. discriminate.
  - destruct (Hplain _ Hh) as [f ->]. rewrite (Hpre f eq_refl).
    split; [reflexivity|]. eauto.
  - destruct (Hplain _ Hh) as [f ->]. rewrite (Hpre f eq_refl).
    split; [reflexivity|]. eauto 6.
Qed.

Lemma get_is_Some (k : string) (o : Obj.t) :
  is_Some (Obj.get k o) <-> In k (Obj.keys o).
Proof.
  induction o as [|[k0 v0] o IH]; simpl.
  - split; [intros [x Hx]; discriminate | intros []].
  - destruct (String.eqb_spec k k0) as [->|Hne].
    + split; [now left | eauto].
    + rewrite IH. split; [now right | intros [H|H]; [congruence | assumption]].
Qed.

Lemma last_value_is_Some (k : string) (es : list (string * JsValue)) :
  is_Some (last_value k es) <-> In k (map fst es).
Proof.
  induction es as [|[k0 v0] es IH]; simpl.
  - split; [intros [x Hx]; discriminate | intros []].
  - destruct (last_value k es) as [x|] eqn:E.
    + split; [intros _; right; apply IH; eauto | eauto].
    + destruct (String.eqb_spec k k0) as [->|Hne].
      * split; [now left | eauto].
      * split; [intros [x Hx]; discriminate|].
        intros [H|H]; [congruence|]. apply IH in H as [x Hx]. discriminate.
Qed.

(** X7. The merged input is a well-formed object: no key occurs twice, and
    its keys are exactly the keys of the request's own fields and of the
    path parameters. *)
Theorem X7_merged_input_keys (method : string) (req : NextRequest)
    (context : option JsValue) :
  exists raw,
    outcome (rawInput method req context) = Normal raw /\
    List.NoDup (Obj.keys raw) /\
    forall k, In k (Obj.keys raw) <->
              In k (map fst (request_fields method req)) \/
              In k (map fst (own_entries (context_params context))).
Proof.
  destruct (rawInput_lookup method req context) as (raw & Hraw & Hget).
  exists raw. split; [now rewrite Hraw|]. split.
  - revert Hraw. unfold rawInput, mbind, eff_bind, await.
    destruct (is_GET_or_DELETE method); [|destruct (json req)]; simpl;
      intros [= <-]; apply NoDup_keys_assign, NoDup_keys_assign; constructor.
  - intros k. rewrite <- get_is_Some, Hget, <- !last_value_is_Some.
    destruct (last_value k (own_entries (context_params context))) as [v|].
    + split; [intros _; right; eauto | eauto].
    + split; [now left | intros [H|[x Hx]]; [assumption | discriminate]].
Qed.

(** X8. A handler whose function returns [undefined] is answered 500, not
    200: serialising the result throws inside the [try] block, and the
    thrown error is logged and reported in the body. *)
Theorem X8_undefined_result_is_500 (handlers : gmap string Handler)
    (method : string) (req : NextRequest) (context : option JsValue)
    (handlerDef : Handler) (raw : Obj.t) :
  handlers !! method = Some handlerDef ->
  outcome (rawInput method req context) = Normal raw ->
  handler_result handlerDef (JObject raw) req (context_params context)
    = Some (Normal JUndefined) ->
  let run := createMethod handlers method req context in
  exists r m,
    outcome run = Normal r /\ status r = 500 /\
    body r = JObject [("error", JString m)] /\
    console_errors (trace run) = [ThrownError m].
Proof.
  intros Hh Hraw Hres run. subst run.
  destruct (rawInput_lookup method req context) as (raw' & Hraw' & _).
  rewrite Hraw' in Hraw. injection Hraw as <-.
  destruct handlerDef as [f|schema handler]; simpl in Hres.
  - rewrite (createMethod_regular _ _ _ _ _ _ Hh Hraw'). simpl.
    injection Hres as ->. do 2 eexists. repeat split.
  - rewrite (createMethod_schema _ _ _ _ _ _ _ Hh Hraw'). simpl.
    destruct (safeParse schema (JObject raw')) as [data|issues]; [|discriminate].
    injection Hres as ->. do 2 eexists. repeat split.
Qed.

(** ** The client, case by case *)

(** X9. [fetcher] issues one request and settles by what comes back: a
    failed [fetch] rejects with its error, an ok response gives what
    [res.json()] gives, and a response that is not ok always rejects with
    an [Error], whose message is ["Network error"] when the body is not
    JSON, the body's non-empty string [error] when it has one and
    ["Request failed"] when the body is an object without [error]. *)
Theorem X9_fetcher_outcomes (fetch : Network) (url : string)
    (options : RequestInit) :
  trace (fetcher fetch url options) = [EvFetch url options] /\
  match fetch url options with
  | FetchRejected e => outcome (fetcher fetch url options) = Throw e
  | FetchResponse true res => outcome (fetcher fetch url options) = res
  | FetchResponse false res =>
      exists m,
        outcome (fetcher fetch url options) = Throw (ThrownError m) /\
        (forall e, res = Throw e -> m = "Network error") /\
        (forall fields s,
            res = Normal (JObject fields) ->
            Obj.get "error" fields = Some (JString s) ->
            s <> EmptyString -> m = s) /\
        (forall fields,
            res = Normal (JObject fields) ->
            Obj.get "error" fields = None -> m = "Request failed")
  end.
Proof.
  split; [apply fetcher_trace|].
  unfold fetcher, outcome, mbind, eff_bind. simpl.
  destruct (fetch url options) as [e|[] res]; simpl; try reflexivity.
  destruct res as [v|e]; simpl.
  - destruct (read_error_field v) as [field|e'] eqn:Hf; simpl.
    + eexists. split; [reflexivity|]. split; [discriminate|]. split.
      * intros fields s [= ->] Hget Hs. simpl in Hf. injection Hf as <-.
        unfold js_get. simpl. rewrite Hget. simpl.
        destruct s; [congruence | reflexivity].
      * intros fields [= ->] Hget. simpl in Hf. injection Hf as <-.
        unfold js_get. simpl. rewrite Hget. reflexivity.
    + destruct v; simpl in Hf; try discriminate; injection Hf as <-;
        eexists; (split; [reflexivity|]); repeat split; discriminate.
  - eexists. split; [reflexivity|]. split; [reflexivity|].
    split; discriminate.
Qed.

(** X10. What the adapter answers with a status other than 200 reaches the
    caller of the client: given such a response, [fetcher] rejects with an
    [Error] whose message is the [error] text of the body, or
    ["Request failed"] when that text is empty. *)
Theorem X10_server_error_reaches_caller (handlers : gmap string Handler)
    (method : string) (req : NextRequest) (context : option JsValue)
    (fetch : Network) (url : string) (options : RequestInit) (r : Response) :
  outcome (createMethod handlers method req context) = Normal r ->
  status r <> 200 ->
  fetch url options = FetchResponse false (Normal (body r)) ->
  exists m,
    js_get (body r) "error" = JString m /\
    outcome (fetcher fetch url options) =
      Throw (ThrownError (if String.eqb m EmptyString then "Request failed" else m)).
Proof.
  intros Hrun Hstatus Hfetch.
  destruct (createMethod_shapes handlers method req context)
    as (r' & tr & Hrun' & Hshape).
  rewrite Hrun' in Hrun. injection Hrun as ->.
  assert (Hbody : exists m rest, body r = JObject (("error", JString m) :: rest)).
  { destruct Hshape as [(_ & _ & _ & Hb)
                       |[(raw & issues & schema & handler & _ & _ & _ & _ & Hb)
                       |[(pre & input & handlerDef & _ & Hs & _)
                        |(pre & input & e & handlerDef & _ & _ & Hb & _)]]];
      try congruence; rewrite Hb; eauto. }
  destruct Hbody as (m & rest & Hb). exists m. split.
  - rewrite Hb. reflexivity.
  - unfold fetcher, outcome, mbind, eff_bind. simpl. rewrite Hfetch, Hb. simpl.
    destruct m; reflexivity.
Qed.

(** X11. [trigger] adds nothing to and hides nothing of the request: it
    issues exactly the one request of [mutationFn], returns what it
    returns and throws what it throws, whatever the options are. *)
Theorem X11_trigger_is_transparent (fetch : Network) (route method : string)
    (input : JsValue) (options : option TriggerOptions) :
  outcome (trigger fetch route method input options) =
    outcome (mutationFn fetch route method input) /\
  fetch_calls (trace (trigger fetch route method input options)) =
    fetch_calls (trace (mutationFn fetch route method input)).
Proof.
  rewrite (trigger_run fetch route method input options), mutationFn_trace.
  destruct (outcome (mutationFn fetch route method input)) as [result|e];
    (split; [reflexivity|]); unfold trace; simpl snd.
  - destruct (js_truthy (opt_optimisticData options)),
      (opt_revalidate options); reflexivity.
  - destruct (js_truthy (opt_optimisticData options)),
      (opt_rollbackOnError options); reflexivity.
Qed.

Local Set Warnings "-clear-no-such-hyp".

(** X12. When [trigger] calls the cache: it writes the optimistic data,
    under the route template itself, exactly when the data is truthy; it
    invalidates by the prefix of the concrete route exactly when the
    request resolved and [revalidate] is not [false]; and it refetches the
    route template exactly when the request rejected, [rollbackOnError] is
    not [false] and the optimistic data is truthy. *)
Theorem X12_cache_calls (fetch : Network) (route method : string)
    (input : JsValue) (options : option TriggerOptions) :
  let tr := trace (trigger fetch route method input options) in
  let d := opt_optimisticData options in
  let request := outcome (mutationFn fetch route method input) in
  (forall key data,
      In (EvMutateData key data) tr <->
      key = route /\ data = d /\ js_truthy d = true) /\
  (forall base,
      In (EvMutatePrefix base) tr <->
      base = base_route route input /\ opt_revalidate options = true /\
      exists result, request = Normal result) /\
  (forall key,
      In (EvMutateKey key) tr <->
      key = route /\ opt_rollbackOnError options = true /\
      js_truthy d = true /\ exists e, request = Throw e).
Proof.
  intros tr d request. subst tr d request.
  rewrite (trigger_run fetch route method input options).
  destruct (outcome (mutationFn fetch route method input)) as [result|e];
    unfold trace; simpl snd;
    destruct (js_truthy (opt_optimisticData options));
    [ destruct (opt_revalidate options) | destruct (opt_revalidate options)
    | destruct (opt_rollbackOnError options)
    | destruct (opt_rollbackOnError options) ];
    simpl; naive_solver.
Qed.

Lemma cache_set_other (key k : string) (data : JsValue)
    (c : gmap string CacheEntry) :
  k <> key -> cache_set key data c !! k = c !! k.
Proof.
  intros Hne. unfold cache_set.
  destruct (c !! key); now rewrite lookup_insert_ne.
Qed.

Lemma cache_refetch_other (key k : string) (c : gmap string CacheEntry) :
  k <> key -> cache_refetch key c !! k = c !! k.
Proof. intros Hne. unfold cache_refetch. now rewrite lookup_alter_ne. Qed.

(** X13. [trigger] leaves the rest of the cache alone: whatever the options
    and however the request ends, an entry stored under another text than
    the route template, and whose key is not a string starting with the
    concrete route, is after the run what it was before. *)
Theorem X13_trigger_frame (fetch : Network) (route method : string)
    (input : JsValue) (options : option TriggerOptions)
    (cache : gmap string CacheEntry) (k : string) (e : CacheEntry) :
  cache !! k = Some e ->
  k <> route ->
  prefix_filter (base_route route input) (entry_key e) = false ->
  cache_run (trace (trigger fetch route method input options)) cache !! k = Some e.
Proof.
  intros Hk Hne Hfilter.
  rewrite (trigger_run fetch route method input options).
  assert (Hopt : forall c : gmap string CacheEntry, c !! k = Some e ->
            cache_run (if js_truthy (opt_optimisticData options)
                       then [EvMutateData route (opt_optimisticData options)]
                       else []) c !! k = Some e).
  { intros c Hc. destruct (js_truthy (opt_optimisticData options)); simpl;
      [now rewrite cache_set_other | assumption]. }
  destruct (outcome (mutationFn fetch route method input)) as [result|err];
    unfold trace; simpl snd; rewrite !cache_run_app.
  - destruct (opt_revalidate options); simpl.
    + unfold cache_invalidate. rewrite lookup_fmap, (Hopt cache Hk). simpl.
      now rewrite Hfilter.
    + now apply Hopt.
  - destruct (opt_rollbackOnError options && js_truthy (opt_optimisticData options));
      simpl.
    + rewrite cache_refetch_other by assumption. now apply Hopt.
    + now apply Hopt.
Qed.

(** X14. With [rollbackOnError: false] a rejected request leaves the
    optimistic data in the cache: the entry of the route template holds it
    and is not marked for a refetch by the run, and the error is thrown. *)
Theorem X14_no_rollback_keeps_optimistic_data (fetch : Network)
    (route method : string) (input : JsValue) (o : TriggerOptions) (e : Thrown)
    (cache : gmap string CacheEntry) :
  js_truthy (optimisticData o) = true ->
  opt_rollbackOnError (Some o) = false ->
  outcome (mutationFn fetch route method input) = Throw e ->
  let run := trigger fetch route method input (Some o) in
  outcome run = Throw e /\
  exists entry,
    cache_run (trace run) cache !! route = Some entry /\
    entry_data entry = optimisticData o /\
    entry_stale entry =
      match cache !! route with
      | Some before => entry_stale before
      | None => false
      end.
Proof.
  intros Hd Hroll Hfail run. subst run.
  pose proof (trigger_run fetch route method input (Some o)) as Hrun.
  simpl in Hrun, Hroll. rewrite Hfail, Hd, Hroll in Hrun.
  simpl in Hrun. rewrite Hrun. clear Hrun.
  split; [reflexivity|]. unfold trace, cache_run. simpl. unfold cache_set.
  destruct (cache !! route) as [before|];
    eexists; rewrite lookup_insert_eq; repeat split.
Qed.

(** ** Routes without and with placeholders *)

Lemma append_nil_r (a : string) : a +:+ EmptyString = a.
Proof.
  induction a as [|x a IH]; [reflexivity|]. now rewrite append_cons, IH.
Qed.

Lemma no_bracket_no_placeholder (k s : string) :
  has_char "[" s = false -> js_includes (placeholder k) s = false.
Proof.
  intros H. unfold js_includes.
  rewrite <- (append_nil_r s), (split_skip_text k s EmptyString H).
  reflexivity.
Qed.

(** The loops of [useQuery] and of [mutationFn] run in step: the same
    route, and the query parameters of the one are the body fields of the
    other. *)
Lemma query_step_mutation_step (es : list (string * JsValue)) :
  forall (r : string) (p q : list (string * JsValue)),
    fold_left mutation_step es (@pair string (list (string * JsValue)) r q) =
    (fst (fst (fold_left query_step es
                 (@pair (string * Obj.t) Obj.t (@pair string Obj.t r p) q))),
     snd (fold_left query_step es
            (@pair (string * Obj.t) Obj.t (@pair string Obj.t r p) q))).
Proof.
  induction es as [|kv es IH]; intros r p q; [reflexivity|].
  simpl. destruct (js_includes (placeholder (fst kv)) r); apply IH.
Qed.

Lemma hooks_split_alike (route method : string) (input : JsValue) :
  let '(finalRoute, _, queryParams) := query_parts route input in
  finalRoute = base_route route input /\
  mutation_request route method input =
    (finalRoute,
     {| init_method := method;
        init_body :=
          if (0 <? length (Obj.keys queryParams))%nat
             && negb (String.eqb method "DELETE")
          then Some (JObject queryParams) else None |}).
Proof.
  pose proof (mutation_request_route route method input) as Hroute.
  pose proof (query_step_mutation_step (input_entries input) route [] []) as Hq.
  unfold mutation_request in *. fold (query_parts route input) in Hq.
  destruct (query_parts route input) as [[finalRoute params] queryParams].
  simpl in Hq. rewrite Hq in *. simpl in Hroute. split; [exact Hroute|].
  reflexivity.
Qed.

(** X15. [useQuery] and [mutationFn] split an input the same way: both
    reach the same concrete route, the one [trigger] invalidates, and the
    fields [useQuery] puts in the query string are the fields [mutationFn]
    puts in the body. *)
Theorem X15_hooks_split_alike (route method : string) (input : JsValue) :
  let '(finalRoute, _, queryParams) := query_parts route input in
  finalRoute = base_route route input /\
  mutation_request route method input =
    (finalRoute,
     {| init_method := method;
        init_body :=
          if (0 <? length (Obj.keys queryParams))%nat
             && negb (String.eqb method "DELETE")
          then Some (JObject queryParams) else None |}).
Proof.
  pose proof (mutation_request_route route method input) as Hroute.
  pose proof (query_step_mutation_step (input_entries input) route [] []) as Hq.
  unfold mutation_request in *. fold (query_parts route input) in Hq.
  destruct (query_parts route input) as [[finalRoute params] queryParams].
  simpl in Hq. rewrite Hq in *. simpl in Hroute. split; [exact Hroute|].
  reflexivity.
Qed.

Lemma sendable_cons (kv : string * JsValue) (es : list (string * JsValue)) :
  sendable (kv :: es) =
  if String.eqb (fst kv) "__proto__" then sendable es else kv :: sendable es.
Proof. unfold sendable. simpl. destruct (String.eqb (fst kv) "__proto__"); reflexivity. Qed.

Lemma static_query_fold (route : string) (es : list (string * JsValue)) :
  has_char "[" route = false ->
  forall p q : list (string * JsValue),
    fold_left query_step es
      (@pair (string * Obj.t) Obj.t (@pair string Obj.t route p) q) =
    (route, p, Obj.assign q (sendable es)).
Proof.
  intros H. induction es as [|kv es IH]; intros p q; [reflexivity|].
  rewrite sendable_cons. simpl fold_left.
  rewrite (no_bracket_no_placeholder _ _ H). unfold assign_property.
  destruct (String.eqb (fst kv) "__proto__"); apply IH.
Qed.

Lemma NoDup_keys_sendable (es : list (string * JsValue)) :
  List.NoDup (map fst es) -> List.NoDup (Obj.keys (sendable es)).
Proof.
  induction es as [|kv es IH]; intros Hnd; [constructor|].
  inversion Hnd as [|? ? Hnotin Hnd']; subst. rewrite sendable_cons.
  destruct (String.eqb (fst kv) "__proto__"); [auto|].
  simpl. constructor; [|auto].
  intros Hin. apply Hnotin. unfold Obj.keys, sendable in Hin.
  apply in_map_iff in Hin as (x & Hx & Hin). apply filter_In in Hin as [Hin _].
  apply in_map_iff. eauto.
Qed.

(** X16. On a route template without an opening bracket nothing is
    substituted: [buildRoute] returns the template, [useQuery] and
    [mutationFn] request the template itself, and for an object input
    (distinct keys) every field goes to the query string, respectively to
    the body, except a field named [__proto__], which the assignment in the
    loop drops (no body for DELETE or when no field is left). *)
Theorem X16_static_route (route method : string)
    (fields : list (string * JsValue)) (params : list (string * string)) :
  has_char "[" route = false ->
  distinct (map fst fields) = true ->
  buildRoute route params = route /\
  base_route route (JObject fields) = route /\
  query_parts route (JObject fields) = (route, [], sendable fields) /\
  mutation_request route method (JObject fields) =
    (route,
     {| init_method := method;
        init_body :=
          if (0 <? length (sendable fields))%nat
             && negb (String.eqb method "DELETE")
          then Some (JObject (sendable fields)) else None |}).
Proof.
  intros H Hnd. apply distinct_NoDup in Hnd.
  assert (Hq : query_parts route (JObject fields) = (route, [], sendable fields)).
  { unfold query_parts. change (input_entries (JObject fields)) with fields.
    rewrite static_query_fold by assumption.
    rewrite (assign_app_NoDup (sendable fields) [])
      by now apply NoDup_keys_sendable.
    reflexivity. }
  pose proof (hooks_split_alike route method (JObject fields)) as Haux.
  rewrite Hq in Haux. destruct Haux as [Hbase Hrequest].
  split; [|split; [|split]].
  - unfold buildRoute. induction params as [|kv params IH]; [reflexivity|].
    simpl. rewrite js_replace_absent by now apply no_bracket_no_placeholder.
    exact IH.
  - now symmetry.
  - exact Hq.
  - rewrite Hrequest. unfold Obj.keys. now rewrite length_map.
Qed.

Lemma is_param_In (segs : list Segment) (k : string) :
  is_param segs k = true <-> In (Param k) segs.
Proof.
  unfold is_param. rewrite In_param_names, existsb_exists. split.
  - intros (x & Hx & Heq). apply String.eqb_eq in Heq. now subst.
  - intros H. exists k. split; [assumption | apply String.eqb_refl].
Qed.

Lemma is_param_fill (key value k : string) (segs : list Segment) :
  k <> key -> is_param (map (fill key value) segs) k = is_param segs k.
Proof.
  intros Hne. apply eq_true_iff_eq. rewrite !is_param_In, !In_param_names.
  rewrite param_names_fill, filter_In. split; [tauto|].
  intros H. split; [assumption|]. apply negb_true_iff.
  now apply String.eqb_neq.
Qed.

Lemma includes_is_param (segs : list Segment) (k : string) :
  well_formed segs = true -> has_char "]" k = false ->
  js_includes (placeholder k) (render segs) = is_param segs k.
Proof.
  intros Hwf Hk. unfold well_formed in Hwf.
  apply andb_true_iff in Hwf as [Hok _]. unfold js_includes.
  destruct (is_param segs k) eqn:E.
  - apply is_param_In, first_param in E as (s1 & s2 & -> & Hs1).
    rewrite forallb_app in Hok. apply andb_true_iff in Hok as [Hok1 _].
    now rewrite (search_first k Hk s1 s2 Hok1 Hs1).
  - rewrite (search_absent k Hk segs Hok); [reflexivity|].
    intros H. apply is_param_In in H. congruence.
Qed.

Lemma set_fresh (k : string) (v : JsValue) (o : Obj.t) :
  ~ In k (Obj.keys o) -> Obj.set k v o = o ++ [(k, v)].
Proof.
  induction o as [|[k0 v0] o IH]; simpl; intros Hnotin; [reflexivity|].
  destruct (String.eqb_spec k k0) as [->|Hne]; [tauto|].
  rewrite IH by tauto. reflexivity.
Qed.

Lemma substitute_unused (key value : string) (params : list (string * string))
    (segs : list Segment) :
  ~ In (Param key) segs ->
  map (substitute ((key, value) :: params)) segs = map (substitute params) segs.
Proof.
  intros Hnotin. apply map_ext_in. intros s Hs.
  destruct s as [text|name]; [reflexivity|]. simpl.
  destruct (String.eqb_spec name key) as [->|_]; [tauto | reflexivity].
Qed.

Lemma plain_input_fill (key value : string) (segs : list Segment)
    (es : list (string * JsValue)) :
  ~ In key (map fst es) ->
  plain_input segs es = true ->
  plain_input (map (fill key value) segs) es = true.
Proof.
  unfold plain_input. rewrite !forallb_forall. intros Hkey H kv Hkv.
  rewrite is_param_fill; [now apply H|].
  intros Heq. apply Hkey, in_map_iff. exists kv. split; assumption.
Qed.

Lemma filter_is_param_fill (key value : string) (segs : list Segment)
    (es : list (string * JsValue)) (f : bool -> bool) :
  ~ In key (map fst es) ->
  List.filter (fun kv => f (is_param (map (fill key value) segs) (fst kv))) es =
  List.filter (fun kv => f (is_param segs (fst kv))) es.
Proof.
  intros Hkey. induction es as [|kv es IH]; [reflexivity|].
  simpl in *. rewrite is_param_fill by tauto. rewrite IH by tauto. reflexivity.
Qed.

(** The loop of [useQuery] on a well-formed template. *)
Lemma query_fold_well_formed (es : list (string * JsValue)) :
  forall (segs : list Segment) (p q : list (string * JsValue)),
    well_formed segs = true ->
    List.NoDup (map fst es) ->
    plain_input segs es = true ->
    (forall k, In k (map fst es) -> ~ In k (Obj.keys p) /\ ~ In k (Obj.keys q)) ->
    fold_left query_step es
      (@pair (string * Obj.t) Obj.t (@pair string Obj.t (render segs) p) q) =
    (render (map (substitute (entry_texts es)) segs),
     p ++ sendable (path_entries segs es), q ++ sendable (other_entries segs es)).
Proof.
  induction es as [|[k v] es IH]; intros segs p q Hwf Hnd Hplain Hfresh.
  - simpl. rewrite !app_nil_r. do 2 f_equal.
    clear. induction segs as [|[|] segs IHs]; simpl; congruence.
  - inversion Hnd as [|? ? Hk Hnd']; subst.
    simpl in Hplain. apply andb_true_iff in Hplain as [Hkv Hplain].
    apply andb_true_iff in Hkv as [Hbracket Hvalue]. simpl in Hbracket, Hvalue.
    apply negb_true_iff in Hbracket.
    destruct (Hfresh k (or_introl eq_refl)) as [Hp Hq].
    simpl fold_left.
    rewrite (includes_is_param segs k Hwf Hbracket).
    unfold path_entries, other_entries, entry_texts. simpl.
    destruct (is_param segs k) eqn:Hparam; simpl in Hvalue |- *.
    + apply andb_true_iff in Hvalue as [Hopen Hdollar].
      apply negb_true_iff in Hopen, Hdollar.
      rewrite (js_replace_fill k (js_String v) segs Hbracket Hdollar Hwf).
      assert (Hkeep : exists p',
                assign_property k v p = p' /\
                p' ++ sendable (path_entries (map (fill k (js_String v)) segs) es) =
                p ++ sendable ((k, v) :: path_entries segs es) /\
                forall k', In k' (map fst es) -> ~ In k' (Obj.keys p')).
      { unfold path_entries.
        rewrite (filter_is_param_fill k (js_String v) segs es (fun b => b) Hk).
        rewrite sendable_cons. unfold assign_property. simpl fst.
        destruct (String.eqb k "__proto__").
        - exists p. repeat split.
          intros k' Hk'. now destruct (Hfresh k' (or_intror Hk')).
        - exists (p ++ [(k, v)]). rewrite (set_fresh k v p Hp).
          split; [reflexivity|]. split; [now rewrite <- app_assoc|].
          intros k' Hk'. destruct (Hfresh k' (or_intror Hk')) as [Hp' _].
          unfold Obj.keys. rewrite map_app, in_app_iff.
          simpl. intros [H|[H|[]]]; [now apply Hp'|]. subst. tauto. }
      destruct Hkeep as (p' & -> & Happ & Hfresh').
      rewrite IH; try assumption.
      * rewrite map_map. f_equal; [f_equal|].
        -- f_equal. apply map_ext. intros s. apply substitute_fill.
        -- exact Happ.
        -- f_equal. unfold other_entries.
           now rewrite (filter_is_param_fill k (js_String v) segs es negb Hk).
      * now apply well_formed_fill.
      * now apply plain_input_fill.
      * intros k' Hk'. split; [now apply Hfresh'|].
        now destruct (Hfresh k' (or_intror Hk')).
    + assert (Hkeep : exists q',
                assign_property k v q = q' /\
                q' ++ sendable (other_entries segs es) =
                q ++ sendable ((k, v) :: other_entries segs es) /\
                forall k', In k' (map fst es) -> ~ In k' (Obj.keys q')).
      { rewrite sendable_cons. unfold assign_property. simpl fst.
        destruct (String.eqb k "__proto__").
        - exists q. repeat split.
          intros k' Hk'. now destruct (Hfresh k' (or_intror Hk')).
        - exists (q ++ [(k, v)]). rewrite (set_fresh k v q Hq).
          split; [reflexivity|]. split; [now rewrite <- app_assoc|].
          intros k' Hk'. destruct (Hfresh k' (or_intror Hk')) as [_ Hq'].
          unfold Obj.keys. rewrite map_app, in_app_iff.
          simpl. intros [H|[H|[]]]; [now apply Hq'|]. subst. tauto. }
      destruct Hkeep as (q' & -> & Happ & Hfresh').
      rewrite IH; try assumption.
      * f_equal; [f_equal|].
        -- f_equal. symmetry. apply substitute_unused.
           intros H. apply is_param_In in H. congruence.
        -- exact Happ.
      * intros k' Hk'. split; [|now apply Hfresh'].
        now destruct (Hfresh k' (or_intror Hk')).
Qed.

(** The three loops on a well-formed template, for an object input. *)
Lemma loops_on_well_formed (segs : list Segment) (method : string)
    (fields : list (string * JsValue)) :
  well_formed segs = true ->
  distinct (map fst fields) = true ->
  plain_input segs fields = true ->
  let concrete := render (map (substitute (entry_texts fields)) segs) in
  query_parts (render segs) (JObject fields) =
    (concrete, sendable (path_entries segs fields),
     sendable (other_entries segs fields)) /\
  mutation_request (render segs) method (JObject fields) =
    (concrete,
     {| init_method := method;
        init_body :=
          if (0 <? length (sendable (other_entries segs fields)))%nat
             && negb (String.eqb method "DELETE")
          then Some (JObject (sendable (other_entries segs fields))) else None |}) /\
  base_route (render segs) (JObject fields) = concrete.
Proof.
  intros Hwf Hnd Hplain concrete. apply distinct_NoDup in Hnd.
  assert (Hq : query_parts (render segs) (JObject fields) =
               (concrete, sendable (path_entries segs fields),
                sendable (other_entries segs fields))).
  { unfold query_parts. change (input_entries (JObject fields)) with fields.
    rewrite (query_fold_well_formed fields segs [] [] Hwf Hnd Hplain);
      [reflexivity|].
    intros k _. split; intros []. }
  pose proof (hooks_split_alike (render segs) method (JObject fields)) as Haux.
  rewrite Hq in Haux. destruct Haux as [Hbase Hrequest].
  split; [exact Hq|]. split; [|now symmetry].
  rewrite Hrequest. unfold Obj.keys. now rewrite length_map.
Qed.




(** X17. On a well-formed template, for an object input with distinct keys
    without a closing bracket whose path values print without an opening
    bracket and without a dollar sign, the hooks partition the input: the
    route is the template with every placeholder that is a key replaced by
    the text of the key's value, the path parameters are the entries that
    name a placeholder, and the query string of [useQuery], respectively
    the body of [mutationFn], holds exactly the other entries, in their
    order; a field named [__proto__] is dropped by the assignment and is in
    neither. *)
Theorem X17_hooks_partition_input (segs : list Segment) (method : string)
    (fields : list (string * JsValue)) :
  well_formed segs = true ->
  distinct (map fst fields) = true ->
  plain_input segs fields = true ->
  let concrete := render (map (substitute (entry_texts fields)) segs) in
  query_parts (render segs) (JObject fields) =
    (concrete, sendable (path_entries segs fields),
     sendable (other_entries segs fields)) /\
  mutation_request (render segs) method (JObject fields) =
    (concrete,
     {| init_method := method;
        init_body :=
          if (0 <? length (sendable (other_entries segs fields)))%nat
             && negb (String.eqb method "DELETE")
          then Some (JObject (sendable (other_entries segs fields))) else None |}) /\
  base_route (render segs) (JObject fields) = concrete.
Proof.
  intros Hwf Hnd Hplain concrete. apply distinct_NoDup in Hnd.
  assert (Hq : query_parts (render segs) (JObject fields) =
               (concrete, sendable (path_entries segs fields),
                sendable (other_entries segs fields))).
  { unfold query_parts. change (input_entries (JObject fields)) with fields.
    rewrite (query_fold_well_formed fields segs [] [] Hwf Hnd Hplain);
      [reflexivity|].
    intros k _. split; intros []. }
  pose proof (hooks_split_alike (render segs) method (JObject fields)) as Haux.
  rewrite Hq in Haux. destruct Haux as [Hbase Hrequest].
  split; [exact Hq|]. split; [|now symmetry].
  rewrite Hrequest. unfold Obj.keys. now rewrite length_map.
Qed.

Lemma first_value_NoDup (k v : string) (params : list (string * string)) :
  List.NoDup (map fst params) ->
  In (k, v) params -> first_value k params = Some v.
Proof.
  induction params as [|[k' v'] params IH]; simpl; intros Hnd Hin; [destruct Hin|].
  inversion Hnd as [|? ? Hnotin Hnd']; subst.
  destruct Hin as [[= -> ->]|Hin].
  - now rewrite String.eqb_refl.
  - destruct (String.eqb_spec k k') as [->|_]; [|auto].
    exfalso. apply Hnotin, in_map_iff. exists (k', v). split; [reflexivity | assumption].
Qed.

(** X18. The order of the entries does not matter to [buildRoute]: on a
    well-formed template, two listings of the same plain mapping (distinct
    keys) give the same route. *)
Theorem X18_buildRoute_order_independent (segs : list Segment)
    (params params' : list (string * string)) :
  well_formed segs = true ->
  plain_params params = true ->
  distinct (map fst params) = true ->
  Permutation params params' ->
  buildRoute (render segs) params = buildRoute (render segs) params'.
Proof.
  intros Hwf Hplain Hnd Hperm. apply distinct_NoDup in Hnd.
  assert (Hplain' : plain_params params' = true).
  { unfold plain_params in *. rewrite forallb_forall in *.
    intros kv Hkv. apply Hplain.
    apply (Permutation_in _ (Permutation_sym Hperm) Hkv). }
  assert (Hnd' : List.NoDup (map fst params')).
  { apply (Permutation_NoDup (Permutation_map fst Hperm) Hnd). }
  rewrite !buildRoute_substitute by assumption. f_equal.
  apply map_ext. intros [text|name]; [reflexivity|]. simpl.
  destruct (first_value name params) as [v|] eqn:E.
  - apply first_value_In in E.
    now rewrite (first_value_NoDup name v params' Hnd' (Permutation_in _ Hperm E)).
  - destruct (first_value name params') as [v'|] eqn:E'; [|reflexivity].
    apply first_value_In in E'.
    apply (Permutation_in _ (Permutation_sym Hperm)) in E'.
    rewrite (first_value_NoDup name v' params Hnd E') in E. discriminate.
Qed.

(** X19. A placeholder whose name is not a key of the mapping is left in
    the route as it is (on a well-formed template, with a plain mapping). *)
Theorem X19_missing_parameter_stays (segs : list Segment)
    (params : list (string * string)) (name : string) :
  well_formed segs = true ->
  plain_params params = true ->
  is_param segs name = true ->
  first_value name params = None ->
  js_includes (placeholder name) (buildRoute (render segs) params) = true.
Proof.
  intros Hwf Hplain Hin Hnone. apply is_param_In in Hin.
  rewrite (buildRoute_substitute params segs Hwf Hplain).
  unfold well_formed in Hwf. apply andb_true_iff in Hwf as [Hok _].
  assert (Hname : has_char "]" name = false).
  { rewrite forallb_forall in Hok. specialize (Hok _ Hin). simpl in Hok.
    apply andb_true_iff in Hok as [_ Hok]. now apply negb_true_iff in Hok. }
  assert (Hin' : In (Param name) (map (substitute params) segs)).
  { apply in_map_iff. exists (Param name). split; [|assumption].
    simpl. now rewrite Hnone. }
  apply first_param in Hin' as (s1 & s2 & Heq & Hs1).
  pose proof (substitute_ok params segs Hok Hplain) as Hok'.
  rewrite Heq in *. rewrite forallb_app in Hok'.
  apply andb_true_iff in Hok' as [Hok1 _]. unfold js_includes.
  now rewrite (search_first name Hname s1 s2 Hok1 Hs1).
Qed.

(** ** Query keys and query strings *)

(** A successful [trigger] with [revalidate] not [false] marks stale a
    cached entry whose key passes the prefix test of the route its loop
    computed. *)
Lemma invalidated_by_trigger (fetch : Network) (route method : string)
    (input : JsValue) (mo : option TriggerOptions) (result : JsValue)
    (cache : gmap string CacheEntry) (key : string) (e : CacheEntry) :
  prefix_filter (base_route route input) (JString key) = true ->
  outcome (mutationFn fetch route method input) = Normal result ->
  opt_revalidate mo = true ->
  cache !! key = Some e ->
  entry_key e = JString key ->
  exists e',
    cache_run (trace (trigger fetch route method input mo)) cache !! key = Some e' /\
    entry_stale e' = true.
Proof.
  intros Hprefix Hok Hrev Hcache Hkey.
  rewrite (trigger_run fetch route method input mo), Hok, Hrev.
  unfold trace. simpl snd. rewrite !cache_run_app.
  assert (Hopt : exists e1,
            cache_run (if js_truthy (opt_optimisticData mo)
                       then [EvMutateData route (opt_optimisticData mo)]
                       else []) cache !! key = Some e1 /\
            entry_key e1 = JString key).
  { destruct (js_truthy (opt_optimisticData mo)); simpl; [|eauto].
    destruct (decide (key = route)) as [Heq|Hne].
    - unfold cache_set. rewrite <- Heq, Hcache, lookup_insert_eq. eauto.
    - rewrite cache_set_other by assumption. eauto. }
  destruct Hopt as (e1 & He1 & Hkey1).
  simpl. unfold cache_invalidate. rewrite lookup_fmap, He1. simpl.
  rewrite Hkey1, Hprefix. eauto.
Qed.

(** X20. The key of a query is [null] when [enabled] is [false], whatever
    the route and the input.  Otherwise, on a well-formed template and for
    a plain object input, it is the concrete route followed, when fields
    are left for the query string, by [?] and their serialisation; it
    passes the prefix test of a mutation on the same template and input,
    and a successful [trigger] of that mutation (with [revalidate] not
    [false]) marks the query's cache entry stale. *)
Theorem X20_query_key_is_invalidated (segs : list Segment)
    (fields : list (string * JsValue)) (options : option QueryOptions) :
  (forall route input,
      opt_enabled options = false -> query_key route input options = None) /\
  (well_formed segs = true ->
   distinct (map fst fields) = true ->
   plain_input segs fields = true ->
   opt_enabled options = true ->
   let concrete := render (map (substitute (entry_texts fields)) segs) in
   let key :=
     concrete +:+
     match sendable (other_entries segs fields) with
     | [] => EmptyString
     | sent => "?" +:+ URLSearchParams_toString (entry_texts sent)
     end in
   query_key (render segs) (JObject fields) options = Some key /\
   prefix_filter concrete (JString key) = true /\
   forall (fetch : Network) (method : string) (mo : option TriggerOptions)
          (result : JsValue) (cache : gmap string CacheEntry) (e : CacheEntry),
     outcome (mutationFn fetch (render segs) method (JObject fields))
       = Normal result ->
     opt_revalidate mo = true ->
     cache !! key = Some e ->
     entry_key e = JString key ->
     exists e',
       cache_run (trace (trigger fetch (render segs) method (JObject fields) mo))
         cache !! key = Some e' /\
       entry_stale e' = true).
Proof.
  split.
  - intros route input Hoff. unfold query_key.
    destruct (query_parts route input) as [[finalRoute params] queryParams].
    now rewrite Hoff.
  - intros Hwf Hnd Hplain Hon concrete key.
    destruct (loops_on_well_formed segs "GET" fields Hwf Hnd Hplain)
      as (Hq & _ & Hbase).
    fold concrete in Hq, Hbase.
    assert (Hkey : query_key (render segs) (JObject fields) options = Some key).
    { unfold query_key. rewrite Hq, Hon. unfold queryString, key.
      unfold Obj.keys. rewrite length_map.
      destruct (sendable (other_entries segs fields)); reflexivity. }
    assert (Hprefix : prefix_filter concrete (JString key) = true).
    { apply prefix_filter_spec. unfold key. eauto. }
    split; [exact Hkey|]. split; [exact Hprefix|].
    intros fetch method mo result cache e Hok Hrev Hcache He.
    apply (invalidated_by_trigger fetch (render segs) method (JObject fields)
             mo result cache key e); try assumption.
    now rewrite Hbase.
Qed.

Lemma X20_query_key_is_invalidated_witness :
  query_key "/api/posts/[slug]"
    (JObject [("slug", JString "my-post"); ("tag", JString "a b");
              ("limit", JNumber 10)]) None =
    Some "/api/posts/my-post?tag=a+b&limit=10" /\
  prefix_filter "/api/posts/my-post"
    (JString "/api/posts/my-post?tag=a+b&limit=10") = true /\
  forall (fetch : Network) (method : string) (mo : option TriggerOptions)
         (result : JsValue) (cache : gmap string CacheEntry) (e : CacheEntry),
    outcome (mutationFn fetch "/api/posts/[slug]" method
               (JObject [("slug", JString "my-post"); ("tag", JString "a b");
                         ("limit", JNumber 10)])) = Normal result ->
    opt_revalidate mo = true ->
    cache !! "/api/posts/my-post?tag=a+b&limit=10" = Some e ->
    entry_key e = JString "/api/posts/my-post?tag=a+b&limit=10" ->
    exists e',
      cache_run
        (trace (trigger fetch "/api/posts/[slug]" method
                  (JObject [("slug", JString "my-post"); ("tag", JString "a b");
                            ("limit", JNumber 10)]) mo))
        cache !! "/api/posts/my-post?tag=a+b&limit=10" = Some e' /\
      entry_stale e' = true.
Proof.
  apply (proj2 (X20_query_key_is_invalidated
                  [Lit "/api/posts/"; Param "slug"]
                  [("slug", JString "my-post"); ("tag", JString "a b");
                   ("limit", JNumber 10)] None)).
  - reflexivity.
  - reflexivity.
  - reflexivity.
  - reflexivity.
Defined.

Lemma all_bytes_append (p : ascii -> bool) (a b : string) :
  all_bytes p (a +:+ b) = all_bytes p a && all_bytes p b.
Proof.
  induction a as [|x a IH]; [reflexivity|].
  rewrite append_cons. simpl. now rewrite IH, andb_assoc.
Qed.

Lemma urlencode_byte_bytes (c : ascii) :
  all_bytes query_byte (urlencode_byte c) = true.
Proof. destruct c as [[] [] [] [] [] [] [] []]; reflexivity. Qed.

Lemma urlencode_bytes (s : string) : all_bytes query_byte (urlencode s) = true.
Proof.
  induction s as [|c s IH]; [reflexivity|].
  simpl. now rewrite all_bytes_append, urlencode_byte_bytes, IH.
Qed.

(** X21. A serialised query string is made of ASCII letters and digits and
    of the characters [* - . _ + % = &] only, whatever the names and the
    values hold. *)
Theorem X21_query_string_bytes (pairs : list (string * string)) :
  all_bytes query_byte (URLSearchParams_toString pairs) = true.
Proof.
  unfold URLSearchParams_toString.
  induction pairs as [|kv pairs IH]; [reflexivity|].
  assert (Hpiece : all_bytes query_byte
                     (urlencode (fst kv) +:+ "=" +:+ urlencode (snd kv)) = true).
  { rewrite !all_bytes_append, !urlencode_bytes. reflexivity. }
  simpl map. simpl join_with. simpl map in IH.
  destruct (map (fun kv0 => urlencode (fst kv0) +:+ "=" +:+ urlencode (snd kv0)) pairs);
    [exact Hpiece|].
  rewrite all_bytes_append, Hpiece, all_bytes_append, IH. reflexivity.
Qed.

Lemma decode_urlencode_byte (c : ascii) (r : string) :
  percent_decode (plus_to_space (urlencode_byte c +:+ r)) =
  String c (percent_decode (plus_to_space r)).
Proof. destruct c as [[] [] [] [] [] [] [] []]; reflexivity. Qed.

Lemma decode_urlencode_append (s r : string) :
  percent_decode (plus_to_space (urlencode s +:+ r)) =
  s +:+ percent_decode (plus_to_space r).
Proof.
  induction s as [|c s IH]; [reflexivity|].
  simpl urlencode. rewrite append_assoc, decode_urlencode_byte, IH.
  reflexivity.
Qed.

Lemma decode_urlencode (s : string) :
  percent_decode (plus_to_space (urlencode s)) = s.
Proof.
  rewrite <- (append_nil_r (urlencode s)), decode_urlencode_append.
  apply append_nil_r.
Qed.

Lemma urlencode_byte_no_separator (c : ascii) :
  has_char "&" (urlencode_byte c) = false /\
  has_char "=" (urlencode_byte c) = false.
Proof. destruct c as [[] [] [] [] [] [] [] []]; split; reflexivity. Qed.

Lemma urlencode_no_separator (s : string) :
  has_char "&" (urlencode s) = false /\ has_char "=" (urlencode s) = false.
Proof.
  induction s as [|c s [IH1 IH2]]; [split; reflexivity|].
  simpl urlencode. rewrite !has_char_append, IH1, IH2.
  destruct (urlencode_byte_no_separator c) as [-> ->]. split; reflexivity.
Qed.

Lemma split_name_value_at (sep : ascii) (a b : string) :
  has_char sep a = false ->
  split_name_value sep (a +:+ String sep b) = (a, b).
Proof.
  induction a as [|c a IH]; intros H.
  - rewrite append_nil_l. simpl. now rewrite Ascii.eqb_refl.
  - simpl in H. apply orb_false_iff in H as [Hc Ha].
    rewrite append_cons. simpl. rewrite Hc, (IH Ha). reflexivity.
Qed.

Lemma split_on_whole (sep : ascii) (a : string) :
  has_char sep a = false -> split_on sep a = [a].
Proof.
  induction a as [|c a IH]; intros H; [reflexivity|].
  simpl in H. apply orb_false_iff in H as [Hc Ha].
  simpl. now rewrite Hc, (IH Ha).
Qed.

Lemma split_on_at (sep : ascii) (a r : string) :
  has_char sep a = false ->
  split_on sep (a +:+ String sep r) = a :: split_on sep r.
Proof.
  induction a as [|c a IH]; intros H.
  - rewrite append_nil_l. simpl. now rewrite Ascii.eqb_refl.
  - simpl in H. apply orb_false_iff in H as [Hc Ha].
    rewrite append_cons. simpl. now rewrite Hc, (IH Ha).
Qed.

Lemma query_string_round_trip (pairs : list (string * string)) :
  urlencoded_parse (URLSearchParams_toString pairs) = pairs.
Proof.
  unfold urlencoded_parse, URLSearchParams_toString.
  set (piece := fun kv : string * string =>
                  urlencode (fst kv) +:+ "=" +:+ urlencode (snd kv)).
  set (read := fun p : string =>
                 match p with
                 | EmptyString => None
                 | _ => let '(name, value) := split_name_value "=" p in
                        Some (percent_decode (plus_to_space name),
                              percent_decode (plus_to_space value))
                 end).
  assert (Hread : forall kv, read (piece kv) = Some kv).
  { intros [k v]. unfold read, piece. simpl fst. simpl snd.
    change ("=" +:+ urlencode v) with (String "=" (urlencode v)).
    rewrite split_name_value_at by apply urlencode_no_separator.
    rewrite !decode_urlencode.
    destruct (urlencode k +:+ String "=" (urlencode v)) eqn:E; [|reflexivity].
    destruct (urlencode k); discriminate. }
  assert (Hamp : forall kv, has_char "&" (piece kv) = false).
  { intros [k v]. unfold piece. simpl fst. simpl snd.
    rewrite !has_char_append.
    destruct (urlencode_no_separator k) as [-> _].
    destruct (urlencode_no_separator v) as [-> _]. reflexivity. }
  induction pairs as [|kv pairs IH]; [reflexivity|].
  simpl map. simpl join_with. simpl map in IH.
  destruct (map piece pairs) as [|p ps] eqn:E.
  - destruct pairs; [|discriminate].
    rewrite (split_on_whole _ _ (Hamp kv)). simpl. now rewrite Hread.
  - change ("&" +:+ join_with "&" (p :: ps))
      with (String "&" (join_with "&" (p :: ps))).
    rewrite (split_on_at _ _ _ (Hamp kv)). simpl omap.
    rewrite Hread. f_equal. exact IH.
Qed.

(** X22. Round trip of the query string: parsing what
    [URLSearchParams.toString] wrote gives back the same pairs, names and
    values byte for byte and in the same order, whatever characters they
    hold. *)
Theorem X22_query_string_round_trip (pairs : list (string * string)) :
  urlencoded_parse (URLSearchParams_toString pairs) = pairs.
Proof.
  unfold urlencoded_parse, URLSearchParams_toString.
  set (piece := fun kv : string * string =>
                  urlencode (fst kv) +:+ "=" +:+ urlencode (snd kv)).
  set (read := fun p : string =>
                 match p with
                 | EmptyString => None
                 | _ => let '(name, value) := split_name_value "=" p in
                        Some (percent_decode (plus_to_space name),
                              percent_decode (plus_to_space value))
                 end).
  assert (Hread : forall kv, read (piece kv) = Some kv).
  { intros [k v]. unfold read, piece. simpl fst. simpl snd.
    change ("=" +:+ urlencode v) with (String "=" (urlencode v)).
    rewrite split_name_value_at by apply urlencode_no_separator.
    rewrite !decode_urlencode.
    destruct (urlencode k +:+ String "=" (urlencode v)) eqn:E; [|reflexivity].
    destruct (urlencode k); discriminate. }
  assert (Hamp : forall kv, has_char "&" (piece kv) = false).
  { intros [k v]. unfold piece. simpl fst. simpl snd.
    rewrite !has_char_append.
    destruct (urlencode_no_separator k) as [-> _].
    destruct (urlencode_no_separator v) as [-> _]. reflexivity. }
  induction pairs as [|kv pairs IH]; [reflexivity|].
  simpl map. simpl join_with. simpl map in IH.
  destruct (map piece pairs) as [|p ps] eqn:E.
  - destruct pairs; [|discriminate].
    rewrite (split_on_whole _ _ (Hamp kv)). simpl. now rewrite Hread.
  - change ("&" +:+ join_with "&" (p :: ps))
      with (String "&" (join_with "&" (p :: ps))).
    rewrite (split_on_at _ _ _ (Hamp kv)). simpl omap.
    rewrite Hread. f_equal. exact IH.
Qed.

(** X23. From [useQuery] to the adapter: on a template without an opening
    bracket, when the adapter's [searchParams] are the parse of the query
    string the hook wrote for an object input (distinct keys) and there
    are no path parameters, the merged input of a GET has the fields of
    that input, in order, each with the text of its value, except a field
    named [__proto__], which the hook does not send. *)
Theorem X23_query_reaches_handler (route : string)
    (fields : list (string * JsValue)) (req : NextRequest) :
  has_char "[" route = false ->
  distinct (map fst fields) = true ->
  searchParams req =
    urlencoded_parse
      (URLSearchParams_toString
         (URLSearchParams_of_record (snd (query_parts route (JObject fields))))) ->
  rawInput "GET" req None =
    (Normal (map (fun kv => (fst kv, JString (js_String (snd kv))))
               (sendable fields)), []).
Proof.
  intros Hroute Hnd Hsearch. apply distinct_NoDup in Hnd.
  rewrite query_string_round_trip in Hsearch.
  unfold query_parts in Hsearch.
  change (input_entries (JObject fields)) with fields in Hsearch.
  rewrite static_query_fold in Hsearch by assumption.
  simpl in Hsearch.
  pose proof (NoDup_keys_sendable fields Hnd) as Hsent.
  rewrite (assign_app_NoDup (sendable fields) []) in Hsearch by exact Hsent.
  simpl in Hsearch.
  unfold rawInput, query_entries. simpl. rewrite Hsearch.
  unfold URLSearchParams_of_record. rewrite map_map. simpl.
  unfold Obj.spread2. simpl own_entries. simpl Obj.assign at 1.
  set (sent := map (fun x => (fst x, JString (js_String (snd x))))
                 (sendable fields)).
  assert (Hfields : List.NoDup (Obj.keys sent)).
  { unfold sent, Obj.keys. rewrite map_map. simpl. exact Hsent. }
  unfold Obj.fromEntries.
  rewrite (assign_app_NoDup sent []) by exact Hfields. simpl.
  rewrite (assign_app_NoDup sent []) by exact Hfields. reflexivity.
Qed.

(** X24. An input that is not an object ([undefined], [null], a string, a
    number, a boolean) is no input: nothing is substituted, the request
    goes to the route template as it is, without a body, and the key of a
    query is the template. *)
Theorem X24_input_that_is_no_object (route method : string) (input : JsValue)
    (options : option QueryOptions) :
  js_truthy input && js_typeof_object input = false ->
  base_route route input = route /\
  mutation_request route method input =
    (route, {| init_method := method; init_body := None |}) /\
  query_key route input options =
    if opt_enabled options then Some route else None.
Proof.
  intros H. unfold base_route, mutation_request, query_key, query_parts, input_entries.
  rewrite H. simpl. rewrite append_nil_r. repeat split.
Qed.

(** ** The further properties at sample inputs *)

Lemma X8_undefined_result_is_500_witness :
  let run := createMethod {["GET" := RegularHandler returns_nothing]} "GET"
               get_user_request None in
  exists r m,
    outcome run = Normal r /\ status r = 500 /\
    body r = JObject [("error", JString m)] /\
    console_errors (trace run) = [ThrownError m].
Proof.
  apply (X8_undefined_result_is_500 {["GET" := RegularHandler returns_nothing]}
           "GET" get_user_request None (RegularHandler returns_nothing)
           [("id", JString "a")]).
  - reflexivity.
  - reflexivity.
  - reflexivity.
Defined.

Lemma X10_server_error_reaches_caller_witness :
  exists m,
    js_get (body {| status := 500; body := JObject [("error", JString "boom")] |})
      "error" = JString m /\
    outcome (fetcher always_500 "/api/users"
               {| init_method := "POST"; init_body := None |}) =
      Throw (ThrownError (if String.eqb m EmptyString then "Request failed" else m)).
Proof.
  apply (X10_server_error_reaches_caller {["POST" := RegularHandler boom]} "POST"
           malformed_post None always_500 "/api/users"
           {| init_method := "POST"; init_body := None |}
           {| status := 500; body := JObject [("error", JString "boom")] |}).
  - reflexivity.
  - simpl. lia.
  - reflexivity.
Defined.

Lemma X13_trigger_frame_witness :
  cache_run
    (trace (trigger always_ok "/api/users/[id]" "PUT" update_user_42
              (Some optimistic_user)))
    sample_cache !! "/api/users/7" = Some (fresh_entry "/api/users/7").
Proof.
  apply (X13_trigger_frame always_ok "/api/users/[id]" "PUT" update_user_42
           (Some optimistic_user) sample_cache "/api/users/7"
           (fresh_entry "/api/users/7")).
  - reflexivity.
  - apply String.eqb_neq. reflexivity.
  - reflexivity.
Defined.

Lemma X14_no_rollback_keeps_optimistic_data_witness :
  let run := trigger always_500 "/api/users/[id]" "PUT" update_user_42
               (Some optimistic_no_rollback) in
  outcome run = Throw (ThrownError "boom") /\
  exists entry,
    cache_run (trace run) sample_cache !! "/api/users/[id]" = Some entry /\
    entry_data entry = optimisticData optimistic_no_rollback /\
    entry_stale entry =
      match sample_cache !! "/api/users/[id]" with
      | Some before => entry_stale before
      | None => false
      end.
Proof.
  apply (X14_no_rollback_keeps_optimistic_data always_500 "/api/users/[id]" "PUT"
           update_user_42 optimistic_no_rollback (ThrownError "boom") sample_cache).
  - reflexivity.
  - reflexivity.
  - reflexivity.
Defined.

Lemma X16_static_route_witness :
  buildRoute "/api/posts" [("id", "42")] = "/api/posts" /\
  base_route "/api/posts" new_post_with_proto = "/api/posts" /\
  query_parts "/api/posts" new_post_with_proto =
    ("/api/posts", [],
     [("title", JString "New Post"); ("category", JString "tech & life")]) /\
  mutation_request "/api/posts" "POST" new_post_with_proto =
    ("/api/posts",
     {| init_method := "POST";
        init_body :=
          Some (JObject [("title", JString "New Post");
                         ("category", JString "tech & life")]) |}).
Proof.
  apply (X16_static_route "/api/posts" "POST"
           [("title", JString "New Post"); ("__proto__", JNull);
            ("category", JString "tech & life")] [("id", "42")]).
  - reflexivity.
  - reflexivity.
Defined.

Lemma X17_hooks_partition_input_witness :
  let input := JObject [("id", JString "42"); ("__proto__", JNull);
                        ("name", JString "New Name")] in
  query_parts "/api/users/[id]" input =
    ("/api/users/42", [("id", JString "42")], [("name", JString "New Name")]) /\
  mutation_request "/api/users/[id]" "PUT" input =
    ("/api/users/42",
     {| init_method := "PUT";
        init_body := Some (JObject [("name", JString "New Name")]) |}) /\
  base_route "/api/users/[id]" input = "/api/users/42".
Proof.
  apply (X17_hooks_partition_input [Lit "/api/users/"; Param "id"] "PUT"
           [("id", JString "42"); ("__proto__", JNull);
            ("name", JString "New Name")]).
  - reflexivity.
  - reflexivity.
  - reflexivity.
Defined.

Lemma X18_buildRoute_order_independent_witness :
  buildRoute (render [Lit "/api/posts/"; Param "slug"; Lit "/by/"; Param "id"])
    [("id", "42"); ("slug", "my-post")] =
  buildRoute (render [Lit "/api/posts/"; Param "slug"; Lit "/by/"; Param "id"])
    [("slug", "my-post"); ("id", "42")].
Proof.
  apply (X18_buildRoute_order_independent
           [Lit "/api/posts/"; Param "slug"; Lit "/by/"; Param "id"]
           [("id", "42"); ("slug", "my-post")]
           [("slug", "my-post"); ("id", "42")]).
  - reflexivity.
  - reflexivity.
  - reflexivity.
  - apply perm_swap.
Defined.

Lemma X19_missing_parameter_stays_witness :
  js_includes (placeholder "slug")
    (buildRoute (render [Lit "/api/posts/"; Param "slug"]) [("id", "42")]) = true.
Proof.
  apply (X19_missing_parameter_stays [Lit "/api/posts/"; Param "slug"]
           [("id", "42")] "slug").
  - reflexivity.
  - reflexivity.
  - reflexivity.
  - reflexivity.
Defined.

Lemma X23_query_reaches_handler_witness :
  rawInput "GET" posts_request None =
    (Normal [("category", JString "tech & life"); ("limit", JString "10")], []).
Proof.
  apply (X23_query_reaches_handler "/api/posts"
           [("category", JString "tech & life"); ("__proto__", JNull);
            ("limit", JNumber 10)] posts_request).
  - reflexivity.
  - reflexivity.
  - vm_compute. reflexivity.
Defined.

Lemma X24_input_that_is_no_object_witness :
  base_route "/api/users/[id]" JUndefined = "/api/users/[id]" /\
  mutation_request "/api/users/[id]" "DELETE" JUndefined =
    ("/api/users/[id]", {| init_method := "DELETE"; init_body := None |}) /\
  query_key "/api/users/[id]" JUndefined None =
    if opt_enabled None then Some "/api/users/[id]" else None.
Proof.
  apply (X24_input_that_is_no_object "/api/users/[id]" "DELETE" JUndefined None).
  reflexivity.
Defined.

Example query_key_of_posts :
  query_key "/api/posts" posts_query None =
    Some "/api/posts?category=tech+%26+life&limit=10".
Proof. vm_compute. reflexivity. Qed.

Example query_key_of_a_user :
  query_key "/api/users/[id]" (JObject [("id", JString "123")]) None =
    Some "/api/users/123".
Proof. vm_compute. reflexivity. Qed.

Example parse_of_a_loose_query :
  urlencoded_parse "a=1&&b&=c&d=%zz+%41" =
    [("a", "1"); ("b", EmptyString); (EmptyString, "c"); ("d", "%zz A")].
Proof. vm_compute. reflexivity. Qed.
